(** * text-verb-extractor: a shallow embedding and its verified properties

    The development follows the layout of the Python package:
    - [Py]            the fragment of the Python runtime the package relies on
                      (str methods, the two regular expressions of
                      [clean_text], insertion-ordered dicts, [Counter],
                      [max], exceptions and the module logger);
    - [TextExtractor] [text_extractor.py];
    - [VerbAnalyzer]  [verb_analyzer.py];
    - [Utils]         [utils.py] ([save_results]).

    Text is modelled by [string], one [ascii] per code point, so the model
    covers the code points 0..255; the character classes below are the
    ones CPython uses on that range. *)

From Stdlib Require Import Ascii String NArith Lia Bool DecimalString.
From stdpp Require Import base list strings gmap sorting.

Local Open Scope N_scope.

(* ===================================================================== *)
(** * The Python runtime fragment                                         *)
(* ===================================================================== *)

Module Py.

(** ** Characters *)

Definition ord (c : ascii) : N := N_of_ascii c.

Definition between (lo hi n : N) : bool := (lo <=? n) && (n <=? hi).

(** [str.isspace] on one character; also the class [\s] of [re] and the
    separator set of [str.split()] and [str.strip()]. *)
Definition isspace (c : ascii) : bool :=
  let n := ord c in
  between 9 13 n || between 28 32 n || (n =? 133) || (n =? 160).

(** The class [\w] of [re] on a [str] pattern: alphanumerics and [_]. *)
Definition isword (c : ascii) : bool :=
  let n := ord c in
  between 48 57 n || between 65 90 n || (n =? 95) || between 97 122 n
  || (n =? 170) || (n =? 178) || (n =? 179) || (n =? 181) || (n =? 185)
  || (n =? 186) || between 188 190 n || between 192 214 n
  || between 216 246 n || between 248 255 n.

(** [str.lower] on one character. *)
Definition lower_char (c : ascii) : ascii :=
  let n := ord c in
  if between 65 90 n || between 192 214 n || between 216 222 n
  then ascii_of_N (n + 32) else c.

(** ** Strings *)

Fixpoint lower (s : string) : string :=
  match s with
  | EmptyString => EmptyString
  | String c s' => String (lower_char c) (lower s')
  end.

Definition len (s : string) : nat := String.length s.

(** [s.startswith(p)] *)
Definition startswith (s p : string) : bool := String.prefix p s.

(** [s.endswith(p)] *)
Fixpoint endswith (s p : string) : bool :=
  match s with
  | EmptyString => String.eqb p EmptyString
  | String _ s' => String.eqb s p || endswith s' p
  end.

Fixpoint str_filter (keep : ascii -> bool) (s : string) : string :=
  match s with
  | EmptyString => EmptyString
  | String c s' =>
      if keep c then String c (str_filter keep s') else str_filter keep s'
  end.

Fixpoint str_forallb (p : ascii -> bool) (s : string) : bool :=
  match s with
  | EmptyString => true
  | String c s' => p c && str_forallb p s'
  end.

(** [s.lstrip()] *)
Fixpoint lstrip (s : string) : string :=
  match s with
  | EmptyString => EmptyString
  | String c s' => if isspace c then lstrip s' else s
  end.

(** [s.rstrip()] *)
Fixpoint rstrip (s : string) : string :=
  match s with
  | EmptyString => EmptyString
  | String c s' =>
      match rstrip s' with
      | EmptyString => if isspace c then EmptyString else String c EmptyString
      | r => String c r
      end
  end.

(** [s.strip()] *)
Definition strip (s : string) : string := lstrip (rstrip s).

(** The word under construction is emitted when it is not empty. *)
Definition flush (cur : string) : list string :=
  match cur with
  | EmptyString => []
  | _ => [cur]
  end.

(** [s.split()] with no argument: the maximal runs of non-whitespace
    characters of [s], from left to right; [cur] is the run being read. *)
Fixpoint split_from (cur s : string) : list string :=
  match s with
  | EmptyString => flush cur
  | String c s' =>
      if isspace c then flush cur ++ split_from EmptyString s'
      else split_from (cur +:+ String c EmptyString) s'
  end.

Definition split (s : string) : list string := split_from EmptyString s.

(** [sep.join(parts)] *)
Definition join (sep : string) (parts : list string) : string :=
  String.concat sep parts.

(** [re.sub(r'[^...]', '', s)]: every character outside the class [keep]
    is deleted. *)
Definition re_sub_delete_outside (keep : ascii -> bool) (s : string) : string :=
  str_filter keep s.

(** [re.sub(r'\s+', ' ', s)]: every maximal run of whitespace becomes one
    space; [in_run] tells that the previous character was whitespace. *)
Fixpoint collapse_from (in_run : bool) (s : string) : string :=
  match s with
  | EmptyString => EmptyString
  | String c s' =>
      if isspace c
      then (if in_run then collapse_from true s'
            else String " "%char (collapse_from true s'))
      else String c (collapse_from false s')
  end.

Definition re_sub_whitespace_runs (s : string) : string := collapse_from false s.

(** ** Insertion-ordered dictionaries

    A Python [dict] iterates in insertion order; assigning to a key that is
    already present keeps its position. *)

Definition dict (V : Type) : Type := list (string * V).

Fixpoint dict_get {V} (k : string) (d : dict V) : option V :=
  match d with
  | [] => None
  | (k', v) :: d' => if String.eqb k' k then Some v else dict_get k d'
  end.

(** [d[k] = v] *)
Fixpoint dict_set {V} (k : string) (v : V) (d : dict V) : dict V :=
  match d with
  | [] => [(k, v)]
  | (k', v') :: d' =>
      if String.eqb k' k then (k', v) :: d' else (k', v') :: dict_set k v d'
  end.

Definition keys {V} (d : dict V) : list string := map fst d.
Definition values {V} (d : dict V) : list V := map snd d.
Definition items {V} (d : dict V) : list (string * V) := d.

(** ** [collections.Counter] *)

Definition counter_incr (c : dict nat) (k : string) : dict nat :=
  dict_set k (S (default 0%nat (dict_get k c))) c.

(** [Counter(iterable)] *)
Definition Counter (l : list string) : dict nat := fold_left counter_incr l [].

(** [sum(xs)] *)
Definition py_sum (l : list nat) : nat := fold_left Nat.add l 0%nat.

(** [sorted(xs, key=count, reverse=True)]: stable, largest count first.
    An element goes after the elements whose count is at least its own. *)
Fixpoint insert_desc {A} (count : A -> nat) (x : A) (l : list A) : list A :=
  match l with
  | [] => [x]
  | y :: l' =>
      if (count y <? count x)%nat then x :: y :: l'
      else y :: insert_desc count x l'
  end.

Definition sorted_desc {A} (count : A -> nat) (l : list A) : list A :=
  fold_left (fun acc x => insert_desc count x acc) l [].

(** [Counter.most_common(n)] *)
Definition most_common (n : nat) (c : dict nat) : list (string * nat) :=
  take n (sorted_desc snd (items c)).

(** [enumerate(l, start)] *)
Definition enumerate {A} (l : list A) (start : nat) : list (nat * A) :=
  combine (seq start (length l)) l.

(** ** Exceptions

    [except Exception] catches the instances of [Exception] and lets the
    other instances of [BaseException] through. *)

Inductive exc_class : Type :=
| ValueError
| KeyError
| ExceptionSubclass (name : string)
| BaseExceptionOnly (name : string).

Record exn : Type := Exn { exn_class : exc_class; exn_message : string }.

Definition is_Exception (e : exn) : bool :=
  match exn_class e with
  | BaseExceptionOnly _ => false
  | _ => true
  end.

(** What a call does: it returns a value or it raises. *)
Inductive outcome (A : Type) : Type :=
| Returned (a : A)
| Raised (e : exn).
Arguments Returned {A} a.
Arguments Raised {A} e.

(** ** The observable state: the records of the module logger and the
    files written so far *)

Inductive level : Type := INFO | ERROR.

Record world : Type := World {
  logged : list (level * string);
  files : gmap string string
}.

(** ** Computations *)

Definition M (A : Type) : Type := world -> world * outcome A.

Definition ret {A} (a : A) : M A := fun w => (w, Returned a).

Definition bind {A B} (m : M A) (k : A -> M B) : M B :=
  fun w =>
    match m w with
    | (w', Returned a) => k a w'
    | (w', Raised e) => (w', Raised e)
    end.

(** [raise e] *)
Definition raise {A} (e : exn) : M A := fun w => (w, Raised e).

(** A call into a library. *)
Definition call {A} (r : outcome A) : M A := fun w => (w, r).

(** [logger.error(msg)] *)
Definition logger_error (msg : string) : M unit :=
  fun w => (World (logged w ++ [(ERROR, msg)]) (files w), Returned tt).

(** What [open(path, 'w')] does to the file once the host has accepted the
    call: the file exists and is empty. *)
Definition truncate_file (path : string) : M unit :=
  fun w => (World (logged w) (<[path := EmptyString]> (files w)), Returned tt).

(** What [f.write(content)] does to the file once the host has accepted
    the call. *)
Definition append_file (path content : string) : M unit :=
  fun w =>
    (World (logged w)
       (<[path := default EmptyString (files w !! path) +:+ content]> (files w)),
     Returned tt).

(** [try: body  except Exception as e: handler e] *)
Definition try_except_Exception {A} (body : M A) (handler : exn -> M A) : M A :=
  fun w =>
    match body w with
    | (w', Returned a) => (w', Returned a)
    | (w', Raised e) =>
        if is_Exception e then handler e w' else (w', Raised e)
    end.

(** The handler of the package: [logger.error(f"{what}: {e}")] and a bare
    [raise]. *)
Definition log_and_reraise {A} (what : string) (e : exn) : M A :=
  bind (logger_error (what +:+ ": " +:+ exn_message e)) (fun _ => raise e).

(** [for x in l: s = body x s] *)
Fixpoint for_in {A S} (l : list A) (body : A -> S -> M S) (s : S) : M S :=
  match l with
  | [] => ret s
  | x :: l' => bind (body x s) (for_in l' body)
  end.

(** [max(xs, key=key)]: the first element whose key is largest; the key is
    computed once per element, in order, and may raise. *)
Fixpoint max_from {A} (key : A -> outcome nat) (best : A) (kbest : nat)
    (l : list A) : outcome A :=
  match l with
  | [] => Returned best
  | x :: l' =>
      match key x with
      | Raised e => Raised e
      | Returned kx =>
          if (kbest <? kx)%nat then max_from key x kx l'
          else max_from key best kbest l'
      end
  end.

Definition max_by {A} (key : A -> outcome nat) (l : list A) : outcome A :=
  match l with
  | [] => Raised (Exn ValueError "max() arg is an empty sequence")
  | x :: l' =>
      match key x with
      | Raised e => Raised e
      | Returned kx => max_from key x kx l'
      end
  end.

(** [d[k]] *)
Definition subscript {V} (d : dict V) (k : string) : outcome V :=
  match dict_get k d with
  | Some v => Returned v
  | None => Raised (Exn KeyError k)
  end.

End Py.

Notation "'let*' x := m 'in' k" := (Py.bind m (fun x => k))
  (at level 10, x name, m at level 100, k at level 200).
Notation "'do*' m 'in' k" := (Py.bind m (fun _ => k))
  (at level 10, m at level 100, k at level 200).

(* ===================================================================== *)
(** * text_extractor.py                                                   *)
(* ===================================================================== *)

Module TextExtractor.
Import Py.

(** The image and OCR libraries ([cv2], [PIL.Image], [pytesseract]) are
    not part of the package: their calls and constants form an interface.
    [cv2_threshold] gives the image of the pair that [cv2.threshold]
    returns. *)
Class OCR : Type := {
  ndarray : Type;
  pil_image : Type;
  COLOR_BGR2GRAY : N;
  THRESH_BINARY : N;
  THRESH_OTSU : N;
  ADAPTIVE_THRESH_GAUSSIAN_C : N;
  cv2_imread : string -> outcome (option ndarray);
  cv2_cvtColor : ndarray -> N -> outcome ndarray;
  cv2_threshold : ndarray -> N -> N -> N -> outcome ndarray;
  cv2_adaptiveThreshold : ndarray -> N -> N -> N -> N -> N -> outcome ndarray;
  cv2_GaussianBlur : ndarray -> N * N -> N -> outcome ndarray;
  Image_fromarray : ndarray -> outcome pil_image;
  Image_open : string -> outcome pil_image;
  image_to_string : pil_image -> outcome string
}.

(** One entry of [all_methods]. *)
Record method_result : Type := MethodResult {
  mr_text : string;
  mr_length : nat
}.

(** The second component of the result of [extract_text]. *)
Record details : Type := Details {
  best_method : string;
  all_methods : dict method_result;
  preprocessed : bool
}.

Section WithOCR.
Context `{OCR}.

(** The [try] block of [preprocess_image]. *)
Definition preprocess_image_body (image_path : string) : M (dict ndarray) :=
  let* img := call (cv2_imread image_path) in
  match img with
  | None =>
      raise (Exn ValueError ("Could not read image from " +:+ image_path))
  | Some img =>
      let* gray := call (cv2_cvtColor img COLOR_BGR2GRAY) in
      let processed_images : dict ndarray := [] in
      let* thresh1 := call (cv2_threshold gray 150 255 THRESH_BINARY) in
      let processed_images :=
        dict_set "simple_threshold" thresh1 processed_images in
      let* thresh2 :=
        call (cv2_adaptiveThreshold gray 255 ADAPTIVE_THRESH_GAUSSIAN_C
                THRESH_BINARY 11 2) in
      let processed_images :=
        dict_set "adaptive_threshold" thresh2 processed_images in
      let* thresh3 :=
        call (cv2_threshold gray 0 255 (THRESH_BINARY + THRESH_OTSU)) in
      let processed_images :=
        dict_set "otsu_threshold" thresh3 processed_images in
      let* blurred := call (cv2_GaussianBlur gray (5, 5) 0) in
      let* thresh4 :=
        call (cv2_threshold blurred 0 255 (THRESH_BINARY + THRESH_OTSU)) in
      let processed_images :=
        dict_set "gaussian_otsu" thresh4 processed_images in
      ret processed_images
  end.

Definition preprocess_image (image_path : string) : M (dict ndarray) :=
  try_except_Exception
    (preprocess_image_body image_path)
    (log_and_reraise "Error preprocessing image").

(** The body of the loop over [processed_images.items()]. *)
Definition ocr_method (item : string * ndarray)
    (extraction_results : dict method_result) : M (dict method_result) :=
  let '(method_name, processed_img) := item in
  let* pil_img := call (Image_fromarray processed_img) in
  let* text := call (image_to_string pil_img) in
  ret (dict_set method_name
         {| mr_text := text; mr_length := len (strip text) |}
         extraction_results).

(** [lambda x: extraction_results[x]["length"]] *)
Definition length_of (extraction_results : dict method_result) (x : string)
    : outcome nat :=
  match subscript extraction_results x with
  | Returned r => Returned (mr_length r)
  | Raised e => Raised e
  end.

(** The [try] block of [extract_text]. *)
Definition extract_text_body (image_path : string) (preprocess : bool)
    : M (string * details) :=
  if preprocess then
    let* processed_images := preprocess_image image_path in
    let* extraction_results :=
      for_in (items processed_images) ocr_method [] in
    let* best_method :=
      call (max_by (length_of extraction_results)
              (keys extraction_results)) in
    let* best := call (subscript extraction_results best_method) in
    let best_text := mr_text best in
    ret (best_text,
         {| best_method := best_method;
            all_methods := extraction_results;
            preprocessed := true |})
  else
    let* img := call (Image_open image_path) in
    let* text := call (image_to_string img) in
    ret (text,
         {| best_method := "simple";
            all_methods :=
              [("simple",
                {| mr_text := text; mr_length := len (strip text) |})];
            preprocessed := false |}).

Definition extract_text (image_path : string) (preprocess : bool)
    : M (string * details) :=
  try_except_Exception
    (extract_text_body image_path preprocess)
    (log_and_reraise "Error extracting text").

End WithOCR.

(** The punctuation kept by [clean_text]: full stop, comma, exclamation
    mark, question mark, hyphen, colon, semicolon, apostrophe, double quote
    and the two parentheses. *)
Definition is_kept_punct (c : ascii) : bool :=
  let n := ord c in
  (n =? 46) || (n =? 44) || (n =? 33) || (n =? 63) || (n =? 45) || (n =? 58)
  || (n =? 59) || (n =? 39) || (n =? 34) || (n =? 40) || (n =? 41).

(** The characters that the negated class of the first [re.sub] does not
    match: word characters, whitespace and the kept punctuation. *)
Definition allowed (c : ascii) : bool :=
  isword c || isspace c || is_kept_punct c.

Definition clean_text (text : string) : string :=
  let text := join " " (split text) in
  let text := re_sub_delete_outside allowed text in
  let text := re_sub_whitespace_runs text in
  strip text.

End TextExtractor.


(* ===================================================================== *)
(** * verb_analyzer.py                                                    *)
(* ===================================================================== *)

Module VerbAnalyzer.
Import Py.

(** The tokenizers and the tagger of [nltk] are not part of the package.
    [pos_tag words tagset] returns the (word, tag) pairs. *)
Class NLTK : Type := {
  sent_tokenize : string -> outcome (list string);
  word_tokenize : string -> outcome (list string);
  pos_tag : list string -> string -> outcome (list (string * string))
}.

(** One entry of [sentence_analysis]. *)
Module Sentence.
Record t : Type := Make {
  sentence_number : nat;
  sentence : string;
  verbs : list string;
  verb_count : nat
}.
End Sentence.

(** The dictionary returned by [extract_verbs]. *)
Record analysis : Type := Analysis {
  text : string;
  sentences : list string;
  total_words : nat;
  total_sentences : nat;
  verbs : list string;
  verb_counts : dict nat;
  total_unique_verbs : nat;
  total_verb_instances : nat;
  sentence_analysis : list Sentence.t;
  sentences_with_verbs : nat;
  sentences_without_verbs : nat;
  most_common_verbs : list (string * nat)
}.

(** [[word.lower() for word, tag in tagged if tag.startswith('V')]] *)
Definition verbs_of (tagged : list (string * string)) : list string :=
  map (fun wt => lower (fst wt))
      (List.filter (fun wt => startswith (snd wt) "V") tagged).

(** [sum(1 for s in sentence_analysis if test s)] *)
Definition count_if (test : Sentence.t -> bool) (l : list Sentence.t) : nat :=
  py_sum (map (fun _ => 1%nat) (List.filter test l)).

Section WithNLTK.
Context `{NLTK}.

(** The body of the loop over [enumerate(sentences, 1)]. *)
Definition analyze_sentence (item : nat * string)
    (sentence_analysis : list Sentence.t) : M (list Sentence.t) :=
  let '(i, sentence) := item in
  let* sent_words := call (word_tokenize sentence) in
  let* sent_tagged := call (pos_tag sent_words "universal") in
  let sent_verbs := verbs_of sent_tagged in
  ret (sentence_analysis ++
       [ {| Sentence.sentence_number := i;
            Sentence.sentence := sentence;
            Sentence.verbs := sent_verbs;
            Sentence.verb_count := length sent_verbs |} ]).

(** The [try] block of [extract_verbs]. *)
Definition extract_verbs_body (text : string) : M analysis :=
  let* sentences := call (sent_tokenize text) in
  let* words := call (word_tokenize text) in
  let* tagged_words := call (pos_tag words "universal") in
  let verbs := verbs_of tagged_words in
  let verb_counts := Counter verbs in
  let* sentence_analysis :=
    for_in (enumerate sentences 1) analyze_sentence [] in
  let unique_verbs := keys verb_counts in
  let total_verb_instances := py_sum (values verb_counts) in
  ret {| text := text;
         sentences := sentences;
         total_words := length words;
         total_sentences := length sentences;
         verbs := unique_verbs;
         verb_counts := verb_counts;
         total_unique_verbs := length unique_verbs;
         total_verb_instances := total_verb_instances;
         sentence_analysis := sentence_analysis;
         sentences_with_verbs :=
           count_if (fun s => (0 <? Sentence.verb_count s)%nat)
                    sentence_analysis;
         sentences_without_verbs :=
           count_if (fun s => (Sentence.verb_count s =? 0)%nat)
                    sentence_analysis;
         most_common_verbs := most_common 10 verb_counts |}.

Definition extract_verbs (text : string) : M analysis :=
  try_except_Exception
    (extract_verbs_body text)
    (log_and_reraise "Error analyzing verbs").

End WithNLTK.

(** Common linking verbs. *)
Definition linking_verbs : gset string :=
  {[ "is"; "am"; "are"; "was"; "were"; "be"; "being"; "been";
     "seem"; "appear"; "become"; "grow"; "turn"; "look";
     "feel"; "smell"; "sound"; "taste" ]}.

(** Common helping verbs. *)
Definition helping_verbs : gset string :=
  {[ "have"; "has"; "had"; "do"; "does"; "did"; "will";
     "would"; "shall"; "should"; "may"; "might"; "must";
     "can"; "could" ]}.

(** [categories[key].append(verb)] *)
Definition append_to (key verb : string)
    (categories : gmap string (list string)) : gmap string (list string) :=
  alter (fun l => l ++ [verb]) key categories.

(** The body of the loop of [get_verb_categories]. *)
Definition categorize (categories : gmap string (list string))
    (verb : string) : gmap string (list string) :=
  let verb_lower := lower verb in
  if decide (verb_lower ∈ linking_verbs) then
    append_to "linking_verbs" verb categories
  else if decide (verb_lower ∈ helping_verbs) then
    append_to "helping_verbs" verb categories
  else if endswith verb "ing" then
    append_to "action_verbs" verb categories
  else if endswith verb "ed" && (2 <? len verb)%nat then
    append_to "regular_verbs" verb categories
  else
    append_to "irregular_verbs" verb categories.

Definition get_verb_categories (verbs : list string)
    : gmap string (list string) :=
  let categories : gmap string (list string) :=
    {[ "action_verbs" := [];
       "linking_verbs" := [];
       "helping_verbs" := [];
       "irregular_verbs" := [];
       "regular_verbs" := [] ]} in
  fold_left categorize verbs categories.

End VerbAnalyzer.

(* ===================================================================== *)
(** * utils.py                                                            *)
(* ===================================================================== *)

Module Utils.
Import Py VerbAnalyzer.

(** What [save_results] needs from its argument and from the host: the
    argument is a [Dict[str, Any]] of which two keys are read; the
    operating system, the clock, [json], [pandas] and [str.upper] are not
    part of the package. *)
Class Host : Type := {
  results_dict : Type;
  get_verb_counts : results_dict -> option (dict nat);
  get_sentence_analysis : results_dict -> option (list Sentence.t);
  os_makedirs : string -> outcome unit;
  os_path_join : string -> string -> string;
  datetime_now_strftime : string -> outcome string;
  os_open_w : string -> outcome unit;
  os_write : string -> string -> outcome unit;
  json_dumps : results_dict -> nat -> outcome string;
  DataFrame_to_csv_text : list Sentence.t -> outcome string;
  str_upper : string -> string
}.

(** The dictionary returned by [save_results]. *)
Record saved_paths : Type := SavedPaths {
  json : string;
  txt : string;
  csv : option string
}.

Definition newline : string := String (ascii_of_N 10) EmptyString.

Fixpoint repeat_str (s : string) (n : nat) : string :=
  match n with
  | O => EmptyString
  | S n' => s +:+ repeat_str s n'
  end.

(** The format specification [:20] on a string: left-aligned, padded with
    spaces to twenty characters. *)
Definition pad20 (s : string) : string := s +:+ repeat_str " " (20 - len s).

Definition str_of_nat (n : nat) : string :=
  DecimalString.NilZero.string_of_uint (Nat.to_uint n).

Section WithHost.
Context `{Host}.

(** [open(path, 'w')] *)
Definition open_w (path : string) : M unit :=
  do* call (os_open_w path) in truncate_file path.

(** [f.write(content)] *)
Definition f_write (path content : string) : M unit :=
  do* call (os_write path content) in append_file path content.

(** One line of the verb list. *)
Definition verb_line (item : string * nat) : string :=
  let '(verb, count) := item in
  pad20 (str_upper verb) +:+ " : " +:+ str_of_nat count +:+ " occurrence"
  +:+ (if (1 <? count)%nat then "s" else EmptyString) +:+ newline.

Definition save_results (results : results_dict) (output_dir : string)
    : M saved_paths :=
  do* call (os_makedirs output_dir) in
  let* timestamp := call (datetime_now_strftime "%Y%m%d_%H%M%S") in
  let json_path :=
    os_path_join output_dir ("analysis_" +:+ timestamp +:+ ".json") in
  do* open_w json_path in
  let* dumped := call (json_dumps results 2) in
  do* f_write json_path dumped in
  let txt_path :=
    os_path_join output_dir ("verbs_" +:+ timestamp +:+ ".txt") in
  do* open_w txt_path in
  do* f_write txt_path ("VERBS EXTRACTED FROM TEXT" +:+ newline) in
  do* f_write txt_path (repeat_str "=" 40 +:+ newline +:+ newline) in
  do* for_in
        (sorted_desc snd (items (default [] (get_verb_counts results))))
        (fun item _ => f_write txt_path (verb_line item)) tt in
  match get_sentence_analysis results with
  | Some sentence_analysis =>
      let csv_path :=
        os_path_join output_dir ("sentences_" +:+ timestamp +:+ ".csv") in
      let* table := call (DataFrame_to_csv_text sentence_analysis) in
      do* open_w csv_path in
      do* f_write csv_path table in
      ret {| json := json_path; txt := txt_path; csv := Some csv_path |}
  | None =>
      ret {| json := json_path; txt := txt_path; csv := None |}
  end.

End WithHost.

End Utils.

(* ===================================================================== *)
(** * Stand-ins for the libraries, used to run the model                  *)
(* ===================================================================== *)

Module Doubles.
Import Py TextExtractor VerbAnalyzer Utils.

Definition w0 : world := World [] ∅.

(** ** A tokenizer and two taggers *)

(** Sentences end at a full stop. *)
Fixpoint sentences_from (cur s : string) : list string :=
  match s with
  | EmptyString => flush (strip cur)
  | String c s' =>
      if Ascii.eqb c "."
      then strip (cur +:+ ".") :: sentences_from EmptyString s'
      else sentences_from (cur +:+ String c EmptyString) s'
  end.

(** A full stop at the end of a word is a token of its own. *)
Definition detach_full_stop (tok : string) : list string :=
  if endswith tok "." && (1 <? len tok)%nat
  then [String.substring 0 (len tok - 1) tok; "."]
  else [tok].

Definition words_of (s : string) : list string :=
  List.concat (map detach_full_stop (split s)).

Definition verb_lexicon : list string :=
  ["is"; "sleeping"; "dreams"; "chasing"; "stop"; "run"].

Definition known_verb (w : string) : bool :=
  existsb (String.eqb (lower w)) verb_lexicon.

(** A tagger that looks at one word at a time. *)
Definition tag_word (w : string) : string * string :=
  (w, if known_verb w then "VERB" else if String.eqb w "." then "." else "NOUN").

#[local] Instance lexicon_nltk : NLTK := {|
  sent_tokenize s := Returned (sentences_from EmptyString s);
  word_tokenize s := Returned (words_of s);
  pos_tag ws _ := Returned (map tag_word ws)
|}.

(** A tagger that looks at the position too: a known verb is tagged as a
    verb only at the start of the sequence it is given. *)
Definition tag_in_context (ws : list string) : list (string * string) :=
  match ws with
  | [] => []
  | w :: rest =>
      tag_word w ::
      map (fun w' => (w', if String.eqb w' "." then "." else "NOUN")) rest
  end.

#[local] Instance positional_nltk : NLTK := {|
  sent_tokenize s := Returned (sentences_from EmptyString s);
  word_tokenize s := Returned (words_of s);
  pos_tag ws _ := Returned (tag_in_context ws)
|}.

(** A tagger whose data files are missing. *)
#[local] Instance unavailable_nltk : NLTK := {|
  sent_tokenize s := Raised (Exn (ExceptionSubclass "LookupError") "punkt");
  word_tokenize s := Raised (Exn (ExceptionSubclass "LookupError") "punkt");
  pos_tag ws _ := Raised (Exn (ExceptionSubclass "LookupError") "tagger")
|}.

Definition sample_text : string :=
  "The cat is sleeping on the mat. It dreams about chasing mice.".

(** ** An OCR engine on named images *)

Definition ocr_of (name : string) : string :=
  if String.eqb name "scan.png/gray/simple" then "The cat "
  else if String.eqb name "scan.png/gray/adaptive" then "The cat is"
  else if String.eqb name "scan.png/gray/otsu" then " The cat is "
  else if String.eqb name "scan.png/gray/blur/otsu" then "Th"
  else EmptyString.

#[local] Instance named_ocr : OCR := {|
  ndarray := string;
  pil_image := string;
  COLOR_BGR2GRAY := 6;
  THRESH_BINARY := 0;
  THRESH_OTSU := 8;
  ADAPTIVE_THRESH_GAUSSIAN_C := 1;
  cv2_imread path :=
    Returned (if String.eqb path "missing.png" then None else Some path);
  cv2_cvtColor img _ := Returned (img +:+ "/gray");
  cv2_threshold img t _ _ :=
    Returned (img +:+ (if (t =? 150)%N then "/simple" else "/otsu"));
  cv2_adaptiveThreshold img _ _ _ _ _ := Returned (img +:+ "/adaptive");
  cv2_GaussianBlur img _ _ := Returned (img +:+ "/blur");
  Image_fromarray img := Returned img;
  Image_open path := Returned path;
  image_to_string img := Returned (ocr_of img)
|}.

(** ** A host whose JSON encoder rejects the results *)

#[local] Instance rejecting_host : Host := {|
  results_dict := unit;
  get_verb_counts _ := None;
  get_sentence_analysis _ := None;
  os_makedirs _ := Returned tt;
  os_path_join a b := a +:+ "/" +:+ b;
  datetime_now_strftime _ := Returned "20240101_000000";
  os_open_w _ := Returned tt;
  os_write _ _ := Returned tt;
  json_dumps _ _ :=
    Raised (Exn (ExceptionSubclass "TypeError") "not JSON serializable");
  DataFrame_to_csv_text _ := Returned EmptyString;
  str_upper s := s
|}.

(** A host on which everything succeeds. *)
#[local] Instance plain_host : Host := {|
  results_dict := analysis;
  get_verb_counts a := Some (verb_counts a);
  get_sentence_analysis a := Some (sentence_analysis a);
  os_makedirs _ := Returned tt;
  os_path_join a b := a +:+ "/" +:+ b;
  datetime_now_strftime _ := Returned "20240101_000000";
  os_open_w _ := Returned tt;
  os_write _ _ := Returned tt;
  json_dumps _ _ := Returned "{}";
  DataFrame_to_csv_text _ := Returned "sentence_number,sentence,verbs,verb_count";
  str_upper s := s
|}.

End Doubles.


(* ===================================================================== *)
(** * Properties of the string functions                                  *)
(* ===================================================================== *)

Module StrFacts.
Import Py.

(** stdpp keeps [String.append] folded under [simpl]; these two equations
    unfold it by hand. *)
Lemma append_empty_l (s : string) : EmptyString +:+ s = s.
Proof. reflexivity. Qed.

Lemma append_cons (c : ascii) (s t : string) :
  String c s +:+ t = String c (s +:+ t).
Proof. reflexivity. Qed.

Lemma append_empty_r (s : string) : s +:+ EmptyString = s.
Proof.
  induction s as [|c s IH]; [reflexivity |]. now rewrite append_cons, IH.
Qed.

Lemma append_assoc (s t u : string) : (s +:+ t) +:+ u = s +:+ (t +:+ u).
Proof.
  induction s as [|c s IH]; [reflexivity |]. now rewrite !append_cons, IH.
Qed.

Lemma append_snoc_cons (s : string) (c : ascii) (t : string) :
  (s +:+ String c EmptyString) +:+ t = s +:+ String c t.
Proof. now rewrite append_assoc. Qed.

Lemma append_eq_empty (s t : string) :
  s +:+ t = EmptyString -> s = EmptyString /\ t = EmptyString.
Proof.
  destruct s; [rewrite append_empty_l; tauto | rewrite append_cons; discriminate].
Qed.

(** ** Character predicates over a string *)

Lemma forallb_append p (s t : string) :
  str_forallb p (s +:+ t) = str_forallb p s && str_forallb p t.
Proof.
  induction s as [|c s IH]; [reflexivity |].
  rewrite append_cons. simpl. now rewrite IH, andb_assoc.
Qed.

Lemma filter_append p (s t : string) :
  str_filter p (s +:+ t) = str_filter p s +:+ str_filter p t.
Proof.
  induction s as [|c s IH]; [reflexivity |].
  rewrite append_cons. simpl. destruct (p c); now rewrite ?append_cons, IH.
Qed.

Lemma forallb_filter p (s : string) : str_forallb p (str_filter p s) = true.
Proof.
  induction s as [|c s IH]; simpl; [reflexivity |].
  destruct (p c) eqn:E; simpl; [now rewrite E | assumption].
Qed.

Lemma filter_id p (s : string) : str_forallb p s = true -> str_filter p s = s.
Proof.
  induction s as [|c s IH]; simpl; [reflexivity |].
  intros [Hc Hs]%andb_prop. rewrite Hc. now rewrite IH.
Qed.

Lemma filter_filter p q (s : string) :
  str_filter p (str_filter q s) = str_filter (fun c => q c && p c) s.
Proof.
  induction s as [|c s IH]; simpl; [reflexivity |].
  destruct (q c); simpl; [destruct (p c) |]; now rewrite IH.
Qed.

Lemma filter_ext p q (s : string) :
  (forall c, p c = q c) -> str_filter p s = str_filter q s.
Proof.
  intros E. induction s as [|c s IH]; simpl; [reflexivity |].
  now rewrite E, IH.
Qed.

(** ** Words: non-empty strings without whitespace *)

Definition space_free (s : string) : bool :=
  str_forallb (fun c => negb (isspace c)) s.

Definition is_word (w : string) : Prop :=
  w <> EmptyString /\ space_free w = true.

Lemma space_free_snoc (cur : string) (c : ascii) :
  space_free cur = true -> isspace c = false ->
  space_free (cur +:+ String c EmptyString) = true.
Proof.
  intros Hcur Hc. unfold space_free in *. rewrite forallb_append, Hcur.
  simpl. now rewrite Hc.
Qed.

Lemma snoc_not_empty (cur : string) (c : ascii) :
  cur +:+ String c EmptyString <> EmptyString.
Proof. destruct cur; [| rewrite append_cons]; discriminate. Qed.

Lemma flush_words (cur : string) :
  space_free cur = true -> Forall is_word (flush cur).
Proof.
  intros H. destruct cur; simpl; constructor; [| constructor].
  split; [discriminate | assumption].
Qed.

Lemma split_from_words (s : string) :
  forall cur, space_free cur = true -> Forall is_word (split_from cur s).
Proof.
  induction s as [|c s IH]; intros cur Hcur; simpl.
  - now apply flush_words.
  - destruct (isspace c) eqn:Ec.
    + apply Forall_app. split; [now apply flush_words | now apply IH].
    + apply IH. now apply space_free_snoc.
Qed.

Lemma split_words (s : string) : Forall is_word (split s).
Proof. now apply split_from_words. Qed.

Lemma split_from_space (cur : string) (c : ascii) (s : string) :
  isspace c = true ->
  split_from cur (String c s) = flush cur ++ split_from EmptyString s.
Proof. intros E. simpl. now rewrite E. Qed.

Lemma split_from_nonspace (cur : string) (c : ascii) (s : string) :
  isspace c = false ->
  split_from cur (String c s) = split_from (cur +:+ String c EmptyString) s.
Proof. intros E. simpl. now rewrite E. Qed.

(** Reading a word moves it into the run under construction. *)
Lemma split_from_word (w : string) :
  space_free w = true ->
  forall cur rest, split_from cur (w +:+ rest) = split_from (cur +:+ w) rest.
Proof.
  induction w as [|c w IH]; intros Hw cur rest.
  - now rewrite append_empty_l, append_empty_r.
  - unfold space_free in Hw. simpl in Hw.
    apply andb_prop in Hw as [Hc Hw]. apply negb_true_iff in Hc.
    rewrite append_cons. simpl. rewrite Hc, IH by assumption.
    now rewrite append_snoc_cons.
Qed.

Lemma join_cons (sep w : string) (ws : list string) :
  join sep (w :: ws) =
  match ws with
  | [] => w
  | _ => w +:+ sep +:+ join sep ws
  end.
Proof. reflexivity. Qed.

(** [split] undoes [join] on words. *)
Lemma split_join (ws : list string) :
  Forall is_word ws -> split (join " " ws) = ws.
Proof.
  unfold split. induction 1 as [|w ws [Hne Hsf] Hws IH]; [reflexivity |].
  rewrite join_cons. destruct ws as [|w' ws'].
  - rewrite <- (append_empty_r w) at 1.
    rewrite split_from_word by assumption. simpl.
    destruct w; [contradiction | reflexivity].
  - rewrite split_from_word, append_empty_l by assumption.
    rewrite append_cons, append_empty_l.
    rewrite split_from_space by reflexivity.
    rewrite IH. destruct w; [contradiction | reflexivity].
Qed.

Lemma join_split_idem (s : string) :
  join " " (split (join " " (split s))) = join " " (split s).
Proof. now rewrite split_join by apply split_words. Qed.

Lemma join_eq_empty (ws : list string) :
  Forall is_word ws -> join " " ws = EmptyString -> ws = [].
Proof.
  intros Hws E. destruct Hws as [|w ws [Hne _] Hws]; [reflexivity |].
  rewrite join_cons in E. destruct ws.
  - contradiction.
  - apply append_eq_empty in E as [E _]. contradiction.
Qed.

Lemma forallb_join p (ws : list string) :
  p " "%char = true -> Forall (fun w => str_forallb p w = true) ws ->
  str_forallb p (join " " ws) = true.
Proof.
  intros Hsp. induction 1 as [|w ws Hw Hws IH]; [reflexivity |].
  rewrite join_cons. destruct ws; [assumption |].
  rewrite !forallb_append, Hw, IH. simpl. now rewrite Hsp.
Qed.

Lemma forallb_flush p (cur : string) :
  str_forallb p cur = true ->
  Forall (fun w => str_forallb p w = true) (flush cur).
Proof. intros H. destruct cur; simpl; repeat constructor; assumption. Qed.

Lemma forallb_split_from p (s : string) :
  forall cur, str_forallb p cur = true -> str_forallb p s = true ->
  Forall (fun w => str_forallb p w = true) (split_from cur s).
Proof.
  induction s as [|c s IH]; intros cur Hcur Hs; simpl.
  - now apply forallb_flush.
  - simpl in Hs. apply andb_prop in Hs as [Hc Hs].
    destruct (isspace c).
    + apply Forall_app. split; [now apply forallb_flush | now apply IH].
    + apply IH; [| assumption]. rewrite forallb_append, Hcur. simpl.
      now rewrite Hc.
Qed.

(** ** Stripping *)

Lemma rstrip_nonspace (c : ascii) (s : string) :
  isspace c = false -> rstrip (String c s) = String c (rstrip s).
Proof. intros E. simpl. rewrite E. now destruct (rstrip s). Qed.

Lemma rstrip_space (c : ascii) (s : string) :
  isspace c = true ->
  rstrip (String c s) =
  match rstrip s with
  | EmptyString => EmptyString
  | r => String c r
  end.
Proof. intros E. simpl. now rewrite E. Qed.

Lemma lstrip_word_first (w rest : string) :
  is_word w -> lstrip (w +:+ rest) = w +:+ rest.
Proof.
  intros [Hne Hsf]. destruct w as [|c w]; [contradiction |].
  unfold space_free in Hsf. simpl in Hsf.
  apply andb_prop in Hsf as [Hc _]. apply negb_true_iff in Hc.
  rewrite append_cons. simpl. now rewrite Hc.
Qed.

Lemma lstrip_join (ws : list string) :
  Forall is_word ws -> lstrip (join " " ws) = join " " ws.
Proof.
  intros Hws. destruct Hws as [|w ws Hw Hws]; [reflexivity |].
  rewrite join_cons. destruct ws.
  - rewrite <- (append_empty_r w). now apply lstrip_word_first.
  - now apply lstrip_word_first.
Qed.

(** ** Collapsing whitespace, then stripping, is splitting and joining *)

Lemma join_split_from_rstrip (s : string) :
  join " " (split_from EmptyString s) = rstrip (collapse_from true s)
  /\ forall cur, cur <> EmptyString -> space_free cur = true ->
       join " " (split_from cur s) = cur +:+ rstrip (collapse_from false s).
Proof.
  induction s as [|c s [IHe IHc]].
  - split; [reflexivity |].
    intros cur Hne _. simpl. rewrite append_empty_r.
    destruct cur; [contradiction | reflexivity].
  - destruct (isspace c) eqn:Ec.
    + split.
      * rewrite split_from_space by assumption. simpl. now rewrite Ec.
      * intros cur Hne Hsf. rewrite split_from_space by assumption.
        simpl collapse_from. rewrite Ec.
        rewrite rstrip_space by reflexivity. rewrite <- IHe.
        destruct cur as [|a cur]; [contradiction |]. simpl flush.
        change ([String a cur] ++ split_from EmptyString s)
          with (String a cur :: split_from EmptyString s).
        rewrite join_cons.
        pose proof (split_words s) as Hws. unfold split in Hws.
        destruct (split_from EmptyString s) as [|w ws] eqn:Es.
        -- simpl. now rewrite append_empty_r.
        -- destruct (join " " (w :: ws)) eqn:Ej.
           ++ apply join_eq_empty in Ej; [discriminate | assumption].
           ++ reflexivity.
    + assert (Hstep : forall cur, space_free cur = true ->
                join " " (split_from cur (String c s)) =
                cur +:+ rstrip (collapse_from false (String c s))).
      { intros cur Hsf. rewrite split_from_nonspace by assumption.
        rewrite IHc; [| apply snoc_not_empty | now apply space_free_snoc].
        simpl collapse_from. rewrite Ec, rstrip_nonspace by assumption.
        apply append_snoc_cons. }
      split.
      * rewrite (Hstep EmptyString eq_refl). simpl. now rewrite Ec.
      * intros cur _ Hsf. now apply Hstep.
Qed.

Lemma rstrip_collapse_false (s : string) :
  rstrip (collapse_from false s) = rstrip (collapse_from true s)
  \/ rstrip (collapse_from false s)
     = String " "%char (rstrip (collapse_from true s)).
Proof.
  destruct s as [|c s]; [now left |]. simpl collapse_from.
  destruct (isspace c) eqn:Ec; [| now left].
  rewrite rstrip_space by reflexivity.
  destruct (rstrip (collapse_from true s)); [now left | now right].
Qed.

Lemma strip_collapse (s : string) :
  strip (re_sub_whitespace_runs s) = join " " (split s).
Proof.
  unfold strip, re_sub_whitespace_runs, split.
  destruct (join_split_from_rstrip s) as [E _].
  pose proof (lstrip_join _ (split_words s)) as Hl. unfold split in Hl.
  destruct (rstrip_collapse_false s) as [R | R]; rewrite R.
  - now rewrite <- E.
  - simpl. change (isspace " ") with true. cbn iota. now rewrite <- E.
Qed.

(** ** Deleting characters that are not whitespace commutes with splitting *)

Definition nonempty (s : string) : bool :=
  match s with
  | EmptyString => false
  | _ => true
  end.

Lemma flush_filter keep (cur : string) :
  flush (str_filter keep cur)
  = List.filter nonempty (map (str_filter keep) (flush cur)).
Proof.
  destruct cur as [|c cur]; [reflexivity |]. simpl.
  destruct (keep c); [reflexivity |]. now destruct (str_filter keep cur).
Qed.

Lemma split_from_filter keep (s : string) :
  (forall c, isspace c = true -> keep c = true) ->
  forall cur,
    split_from (str_filter keep cur) (str_filter keep s)
    = List.filter nonempty (map (str_filter keep) (split_from cur s)).
Proof.
  intros Hkeep. induction s as [|c s IH]; intros cur.
  - simpl. apply flush_filter.
  - destruct (isspace c) eqn:Ec.
    + simpl str_filter. rewrite (Hkeep c Ec).
      rewrite !split_from_space by assumption.
      rewrite map_app, List.filter_app, <- flush_filter.
      f_equal. apply (IH EmptyString).
    + rewrite (split_from_nonspace cur) by assumption.
      rewrite <- IH, filter_append. simpl str_filter.
      destruct (keep c).
      * now rewrite split_from_nonspace by assumption.
      * now rewrite append_empty_r.
Qed.

Lemma split_filter keep (s : string) :
  (forall c, isspace c = true -> keep c = true) ->
  split (str_filter keep s)
  = List.filter nonempty (map (str_filter keep) (split s)).
Proof. intros Hkeep. apply (split_from_filter keep s Hkeep EmptyString). Qed.

(** ** The characters that are not whitespace survive [split] and [join] *)

Definition visible (c : ascii) : bool := negb (isspace c).

Lemma filter_visible_word (w : string) :
  space_free w = true -> str_filter visible w = w.
Proof. apply filter_id. Qed.

Lemma visible_join_split_from (s : string) :
  forall cur, space_free cur = true ->
    str_filter visible (join " " (split_from cur s))
    = cur +:+ str_filter visible s.
Proof.
  induction s as [|c s IH]; intros cur Hsf.
  - simpl. rewrite append_empty_r.
    destruct cur; [reflexivity | now apply filter_visible_word].
  - destruct (isspace c) eqn:Ec.
    + rewrite split_from_space by assumption. simpl str_filter.
      unfold visible at 2. rewrite Ec. cbn [negb].
      specialize (IH EmptyString eq_refl). rewrite append_empty_l in IH.
      destruct cur as [|a cur]; [exact IH |].
      change (flush (String a cur) ++ split_from EmptyString s)
        with (String a cur :: split_from EmptyString s).
      rewrite join_cons. destruct (split_from EmptyString s) eqn:Es.
      * rewrite <- IH. simpl join. rewrite append_empty_r.
        now apply filter_visible_word.
      * rewrite !filter_append, IH.
        rewrite (filter_visible_word _ Hsf). reflexivity.
    + rewrite split_from_nonspace by assumption.
      rewrite IH by now apply space_free_snoc.
      simpl str_filter. unfold visible at 2. rewrite Ec. cbn [negb].
      apply append_snoc_cons.
Qed.

Lemma visible_join_split (s : string) :
  str_filter visible (join " " (split s)) = str_filter visible s.
Proof. apply (visible_join_split_from s EmptyString eq_refl). Qed.

End StrFacts.

(* ===================================================================== *)
(** * Properties of [TextExtractor.clean_text]                            *)
(* ===================================================================== *)

Module CleanTextProps.
Import Py TextExtractor StrFacts.

(** Every whitespace character of [s] is a space that is not followed by
    whitespace. *)
Fixpoint runs_collapsed (s : string) : bool :=
  match s with
  | EmptyString => true
  | String c s' =>
      (if isspace c
       then Ascii.eqb c " "
            && match s' with
               | EmptyString => true
               | String c' _ => negb (isspace c')
               end
       else true)
      && runs_collapsed s'
  end.

Lemma allowed_whitespace (c : ascii) : isspace c = true -> allowed c = true.
Proof. intros E. unfold allowed. rewrite E. now rewrite orb_true_r. Qed.

Lemma runs_collapsed_word (w rest : string) :
  space_free w = true ->
  runs_collapsed (w +:+ rest) = runs_collapsed rest.
Proof.
  induction w as [|c w IH]; intros Hsf; [reflexivity |].
  unfold space_free in Hsf. simpl in Hsf.
  apply andb_prop in Hsf as [Hc Hw]. apply negb_true_iff in Hc.
  rewrite append_cons. simpl. rewrite Hc. now apply IH.
Qed.

Lemma runs_collapsed_join (ws : list string) :
  Forall is_word ws -> runs_collapsed (join " " ws) = true.
Proof.
  induction 1 as [|w ws [Hne Hsf] Hws IH]; [reflexivity |].
  rewrite join_cons. destruct ws as [|w' ws'].
  - rewrite <- (append_empty_r w). now rewrite runs_collapsed_word.
  - rewrite runs_collapsed_word by assumption.
    rewrite append_cons, append_empty_l.
    apply Forall_inv in Hws as [Hne' Hsf'].
    remember (join " " (w' :: ws')) as j eqn:Ej.
    rewrite join_cons in Ej.
    assert (Hfirst : exists c t, j = String c t /\ isspace c = false).
    { destruct w' as [|c w']; [contradiction |].
      unfold space_free in Hsf'. simpl in Hsf'.
      apply andb_prop in Hsf' as [Hc _]. apply negb_true_iff in Hc.
      destruct ws'; subst j; rewrite ?append_cons; eauto. }
    destruct Hfirst as (c & t & -> & Hc).
    simpl in IH. rewrite Hc in IH.
    simpl. change (isspace " ") with true. cbn iota. rewrite Hc. exact IH.
Qed.

Lemma runs_collapsed_get (s : string) :
  runs_collapsed s = true ->
  forall i c, String.get i s = Some c -> isspace c = true ->
    c = " "%char
    /\ forall c', String.get (S i) s = Some c' -> isspace c' = false.
Proof.
  induction s as [|a s IH]; intros Hs i c Hget Hc; [discriminate |].
  simpl in Hs. apply andb_prop in Hs as [Ha Hs].
  destruct i as [|i].
  - simpl in Hget. injection Hget as ->. rewrite Hc in Ha.
    apply andb_prop in Ha as [Ha Hnext]. split.
    + now apply Ascii.eqb_eq.
    + intros c' Hget'. simpl in Hget'. destruct s; [discriminate |].
      simpl in Hget'. injection Hget' as ->. now apply negb_true_iff.
  - simpl in Hget. destruct (IH Hs i c Hget Hc) as [E Hnext].
    split; [assumption |]. intros c' Hget'. now apply Hnext.
Qed.

(** [clean_text] deletes the characters outside the allow-list and then
    normalises the whitespace. *)
Lemma clean_text_eq (s : string) :
  clean_text s = join " " (split (str_filter allowed s)).
Proof.
  unfold clean_text, re_sub_delete_outside. rewrite strip_collapse.
  rewrite (split_filter allowed (join " " (split s)) allowed_whitespace).
  rewrite (split_join _ (split_words s)).
  now rewrite <- (split_filter allowed s allowed_whitespace).
Qed.

Lemma clean_text_allowed (s : string) :
  str_forallb allowed (clean_text s) = true.
Proof.
  rewrite clean_text_eq. apply forallb_join; [reflexivity |].
  apply forallb_split_from; [reflexivity | apply forallb_filter].
Qed.

(** C5: cleaning is idempotent: cleaning a cleaned text gives the same
    text. *)
Theorem clean_text_idempotent (s : string) :
  clean_text (clean_text s) = clean_text s.
Proof.
  rewrite (clean_text_eq (clean_text s)).
  rewrite (filter_id allowed _ (clean_text_allowed s)).
  rewrite clean_text_eq. apply join_split_idem.
Qed.

(** C6: the result of [clean_text] is the input without the characters
    outside the allow-list and with its whitespace normalised: every
    character of the result is on the allow-list, every whitespace
    character of the result is one space that no whitespace follows, and
    the characters that are not whitespace are those of the input that are
    on the allow-list, in the same order.  [clean_text] is a function of
    its argument alone: it does not run in [M]. *)
Theorem clean_text_collapses_and_filters (s : string) :
  clean_text s = join " " (split (str_filter allowed s))
  /\ str_forallb allowed (clean_text s) = true
  /\ (forall i c, String.get i (clean_text s) = Some c -> isspace c = true ->
        c = " "%char
        /\ forall c', String.get (S i) (clean_text s) = Some c' ->
                      isspace c' = false)
  /\ str_filter visible (clean_text s)
     = str_filter (fun c => allowed c && visible c) s.
Proof.
  split; [apply clean_text_eq |].
  split; [apply clean_text_allowed |].
  split.
  - apply runs_collapsed_get. rewrite clean_text_eq.
    apply runs_collapsed_join, split_words.
  - rewrite clean_text_eq, visible_join_split. apply filter_filter.
Qed.

End CleanTextProps.

(* ===================================================================== *)
(** * Properties of [VerbAnalyzer.get_verb_categories]                    *)
(* ===================================================================== *)

Module CategoryProps.
Import Py VerbAnalyzer.

(** The five categories, and the branch of the loop body that a verb
    takes. *)
Inductive category : Type := Action | Linking | Helping | Irregular | Regular.

#[global] Instance category_eq_dec : EqDecision category.
Proof. solve_decision. Defined.

Definition key_of (c : category) : string :=
  match c with
  | Action => "action_verbs"
  | Linking => "linking_verbs"
  | Helping => "helping_verbs"
  | Irregular => "irregular_verbs"
  | Regular => "regular_verbs"
  end.

Definition all_categories : list category :=
  [Action; Linking; Helping; Irregular; Regular].

Definition classify (verb : string) : category :=
  if decide (lower verb ∈ linking_verbs) then Linking
  else if decide (lower verb ∈ helping_verbs) then Helping
  else if endswith verb "ing" then Action
  else if endswith verb "ed" && (2 <? len verb)%nat then Regular
  else Irregular.

(** The occurrences of [verbs] that take the branch of [c], in order. *)
Definition occurrences (c : category) (verbs : list string) : list string :=
  filter (fun v => classify v = c) verbs.

Lemma key_of_inj (c d : category) : key_of c = key_of d -> c = d.
Proof. destruct c, d; simpl; intros E; try reflexivity; discriminate. Qed.

Lemma categorize_classify categories verb :
  categorize categories verb = append_to (key_of (classify verb)) verb categories.
Proof.
  unfold categorize, classify.
  repeat (case_decide || case_match); reflexivity.
Qed.

Lemma lookup_append_to key verb (categories : gmap string (list string)) k :
  append_to key verb categories !! k
  = (fun l => if decide (key = k) then l ++ [verb] else l) <$> categories !! k.
Proof.
  unfold append_to. rewrite lookup_alter. case_decide.
  - now subst.
  - now destruct (categories !! k).
Qed.

Lemma occurrences_snoc c verbs verb :
  occurrences c (verbs ++ [verb])
  = occurrences c verbs ++ (if decide (classify verb = c) then [verb] else []).
Proof.
  unfold occurrences. rewrite filter_app, filter_cons, filter_nil.
  reflexivity.
Qed.

(** The loop appends to each list the occurrences of its category. *)
Lemma fold_categorize verbs :
  forall (categories : gmap string (list string)) c,
    fold_left categorize verbs categories !! key_of c
    = (fun l => l ++ occurrences c verbs) <$> categories !! key_of c.
Proof.
  induction verbs as [|verb verbs IH]; intros categories c.
  - simpl. destruct (categories !! key_of c); simpl; [| reflexivity].
    unfold occurrences. now rewrite filter_nil, app_nil_r.
  - simpl. rewrite IH, categorize_classify, lookup_append_to.
    destruct (categories !! key_of c) as [l|]; simpl; [| reflexivity].
    f_equal. unfold occurrences. rewrite filter_cons.
    destruct (decide (key_of (classify verb) = key_of c)) as [E | NE].
    + apply key_of_inj in E. rewrite decide_True by assumption.
      now rewrite <- app_assoc.
    + rewrite decide_False; [reflexivity |]. intros E. apply NE. now f_equal.
Qed.

Lemma fold_categorize_other verbs k :
  (forall c, key_of c <> k) ->
  forall (categories : gmap string (list string)),
    fold_left categorize verbs categories !! k = categories !! k.
Proof.
  intros Hk. induction verbs as [|verb verbs IH]; intros categories.
  - reflexivity.
  - simpl. rewrite IH, categorize_classify, lookup_append_to.
    destruct (decide (key_of (classify verb) = k)) as [E | _].
    + now apply Hk in E.
    + now destruct (categories !! k).
Qed.

Lemma lookup_category verbs c :
  get_verb_categories verbs !! key_of c = Some (occurrences c verbs).
Proof.
  unfold get_verb_categories. rewrite fold_categorize.
  destruct c; reflexivity.
Qed.

Lemma lookup_other verbs k :
  (forall c, key_of c <> k) -> get_verb_categories verbs !! k = None.
Proof.
  intros Hk. unfold get_verb_categories. rewrite fold_categorize_other by assumption.
  pose proof (Hk Action). pose proof (Hk Linking). pose proof (Hk Helping).
  pose proof (Hk Irregular). pose proof (Hk Regular).
  now rewrite !lookup_insert_ne, lookup_singleton_ne.
Qed.

(** [verb] is in the list that [categories] holds under [key]. *)
Definition assigned_to (key verb : string)
    (categories : gmap string (list string)) : Prop :=
  exists l, categories !! key = Some l /\ verb ∈ l.

Lemma assigned_iff verbs c v :
  assigned_to (key_of c) v (get_verb_categories verbs)
  <-> classify v = c /\ v ∈ verbs.
Proof.
  unfold assigned_to. rewrite lookup_category. split.
  - intros (l & [= <-] & Hin). now apply list_elem_of_filter in Hin.
  - intros Hv. eexists. split; [reflexivity |].
    now apply list_elem_of_filter.
Qed.

(** ** The two word sets *)

(** A property of every member of a word set is checked member by member. *)
Ltac each_member H :=
  unfold linking_verbs, helping_verbs in H; set_unfold in H;
  destruct_or!; subst.

Lemma linking_lowercase x : x ∈ linking_verbs -> lower x = x.
Proof.
  intros Hx. each_member Hx; reflexivity.
Qed.

Lemma helping_lowercase x : x ∈ helping_verbs -> lower x = x.
Proof.
  intros Hx. each_member Hx; reflexivity.
Qed.

Lemma linking_no_ed x : x ∈ linking_verbs -> endswith x "ed" = false.
Proof.
  intros Hx. each_member Hx; reflexivity.
Qed.

Lemma helping_no_ed x : x ∈ helping_verbs -> endswith x "ed" = false.
Proof.
  intros Hx. each_member Hx; reflexivity.
Qed.

Lemma helping_not_linking x : x ∈ helping_verbs -> x ∉ linking_verbs.
Proof.
  intros Hx.
  each_member Hx; apply (proj1 (bool_decide_eq_false _)); vm_compute;
    reflexivity.
Qed.

(** ** Suffixes *)

Lemma endswith_lower (s p : string) :
  endswith s p = true -> endswith (lower s) (lower p) = true.
Proof.
  induction s as [|c s IH]; cbn [endswith lower].
  - intros ->%String.eqb_eq. reflexivity.
  - intros [E | E]%orb_prop.
    + apply String.eqb_eq in E. rewrite <- E. cbn [lower].
      now rewrite String.eqb_refl.
    + rewrite (IH E). apply orb_true_r.
Qed.

Lemma endswith_ing_not_ed (s : string) :
  endswith s "ing" = true -> endswith s "ed" = false.
Proof.
  induction s as [|c s IH]; [discriminate |].
  cbn [endswith]. intros [E | E]%orb_prop.
  - apply String.eqb_eq in E. injection E as -> ->. reflexivity.
  - rewrite (IH E), orb_false_r. apply String.eqb_neq. intros Heq.
    injection Heq as -> ->. discriminate.
Qed.

(** ** Which branch a verb takes *)

Lemma classify_linking v : lower v ∈ linking_verbs -> classify v = Linking.
Proof. intros H. unfold classify. now rewrite decide_True. Qed.

Lemma classify_helping v : lower v ∈ helping_verbs -> classify v = Helping.
Proof.
  intros H. unfold classify.
  rewrite decide_False by now apply helping_not_linking.
  now rewrite decide_True.
Qed.

Lemma classify_action v :
  lower v ∉ linking_verbs -> lower v ∉ helping_verbs ->
  endswith v "ing" = true -> classify v = Action.
Proof.
  intros Hl Hh E. unfold classify.
  rewrite !decide_False by assumption. now rewrite E.
Qed.

Lemma classify_regular v :
  endswith v "ed" = true -> (2 < len v)%nat -> classify v = Regular.
Proof.
  intros E Hlen. unfold classify.
  pose proof (endswith_lower v "ed" E) as El.
  change (lower "ed") with "ed" in El.
  rewrite decide_False.
  2:{ intros Hin. apply linking_no_ed in Hin. congruence. }
  rewrite decide_False.
  2:{ intros Hin. apply helping_no_ed in Hin. congruence. }
  destruct (endswith v "ing") eqn:Eing.
  - apply endswith_ing_not_ed in Eing. congruence.
  - rewrite E. simpl. now apply Nat.ltb_lt in Hlen as ->.
Qed.

Lemma classify_irregular v :
  lower v ∉ linking_verbs -> lower v ∉ helping_verbs ->
  endswith v "ing" = false ->
  endswith v "ed" = false \/ (len v <= 2)%nat ->
  classify v = Irregular.
Proof.
  intros Hl Hh Eing Hed. unfold classify.
  rewrite !decide_False by assumption. rewrite Eing.
  destruct Hed as [-> | Hlen]; [reflexivity |].
  apply Nat.ltb_ge in Hlen as ->. now rewrite andb_false_r.
Qed.

(** ** The five lists partition the occurrences *)

Lemma occurrences_cons c v verbs :
  occurrences c (v :: verbs)
  = if decide (classify v = c) then v :: occurrences c verbs
    else occurrences c verbs.
Proof. unfold occurrences. now rewrite filter_cons. Qed.

Lemma occurrences_perm verbs :
  occurrences Action verbs ++ occurrences Linking verbs
  ++ occurrences Helping verbs ++ occurrences Irregular verbs
  ++ occurrences Regular verbs ≡ₚ verbs.
Proof.
  induction verbs as [|v verbs IH]; [reflexivity |].
  rewrite !occurrences_cons.
  destruct (classify v); simpl; rewrite <- ?Permutation_middle;
    now rewrite IH.
Qed.

Lemma categories_eq verbs :
  get_verb_categories verbs
  = {[ "action_verbs" := occurrences Action verbs;
       "linking_verbs" := occurrences Linking verbs;
       "helping_verbs" := occurrences Helping verbs;
       "irregular_verbs" := occurrences Irregular verbs;
       "regular_verbs" := occurrences Regular verbs ]}.
Proof.
  apply map_eq. intros k.
  destruct (decide (k = "action_verbs")) as [-> | ?];
    [exact (lookup_category verbs Action) |].
  destruct (decide (k = "linking_verbs")) as [-> | ?];
    [exact (lookup_category verbs Linking) |].
  destruct (decide (k = "helping_verbs")) as [-> | ?];
    [exact (lookup_category verbs Helping) |].
  destruct (decide (k = "irregular_verbs")) as [-> | ?];
    [exact (lookup_category verbs Irregular) |].
  destruct (decide (k = "regular_verbs")) as [-> | ?];
    [exact (lookup_category verbs Regular) |].
  rewrite lookup_other by (intros []; simpl; congruence).
  now rewrite !lookup_insert_ne, lookup_singleton_ne.
Qed.

Lemma occurrences_disjoint verbs (i j : nat) li lj v :
  map (fun c => occurrences c verbs) all_categories !! i = Some li ->
  map (fun c => occurrences c verbs) all_categories !! j = Some lj ->
  v ∈ li -> v ∈ lj -> i = j.
Proof.
  rewrite !list_lookup_fmap.
  destruct (all_categories !! i) as [ci|] eqn:Ei; [| discriminate].
  destruct (all_categories !! j) as [cj|] eqn:Ej; [| discriminate].
  intros [= <-] [= <-] [Hi _]%list_elem_of_filter [Hj _]%list_elem_of_filter.
  rewrite Hi in Hj. subst cj.
  assert (Hnodup : NoDup all_categories).
  { apply (bool_decide_unpack _). vm_compute. exact I. }
  exact (NoDup_lookup _ _ _ _ Hnodup Ei Ej).
Qed.

(** C3: the result holds exactly the five category lists; together they
    are a rearrangement of the input, so every occurrence of a verb is in
    exactly one list and the lengths add up to the length of the input; no
    verb is in two lists; and a verb that matches neither word set nor
    suffix rule is in [irregular_verbs]. *)
Theorem get_verb_categories_partition (verbs : list string) :
  exists action linking helping irregular regular,
    get_verb_categories verbs
    = {[ "action_verbs" := action;
         "linking_verbs" := linking;
         "helping_verbs" := helping;
         "irregular_verbs" := irregular;
         "regular_verbs" := regular ]}
    /\ action ++ linking ++ helping ++ irregular ++ regular ≡ₚ verbs
    /\ (length action + length linking + length helping
        + length irregular + length regular = length verbs)%nat
    /\ (forall (i j : nat) li lj v,
          [action; linking; helping; irregular; regular] !! i = Some li ->
          [action; linking; helping; irregular; regular] !! j = Some lj ->
          v ∈ li -> v ∈ lj -> i = j)
    /\ (forall v, v ∈ verbs ->
          lower v ∉ linking_verbs -> lower v ∉ helping_verbs ->
          endswith v "ing" = false ->
          endswith v "ed" = false \/ (len v <= 2)%nat ->
          v ∈ irregular).
Proof.
  exists (occurrences Action verbs), (occurrences Linking verbs),
    (occurrences Helping verbs), (occurrences Irregular verbs),
    (occurrences Regular verbs).
  split; [apply categories_eq |].
  split; [apply occurrences_perm |].
  split.
  - rewrite <- (Permutation_length (occurrences_perm verbs)).
    rewrite !length_app. lia.
  - split; [apply occurrences_disjoint |].
    intros v Hv Hl Hh Eing Hed. apply list_elem_of_filter.
    split; [now apply classify_irregular | assumption].
Qed.

(** C4, as the code has it: a verb ending in "ing" goes to the action
    category when its lowercase form is in neither word set; a verb ending
    in "ed" and longer than two characters goes to the regular category; a
    member of the linking set goes to the linking category and a member of
    the helping set to the helping category. *)
Theorem suffix_and_lookup_rules (verbs : list string) (v : string) :
  v ∈ verbs ->
  (lower v ∉ linking_verbs -> lower v ∉ helping_verbs ->
   endswith v "ing" = true ->
   assigned_to "action_verbs" v (get_verb_categories verbs))
  /\ (endswith v "ed" = true -> (2 < len v)%nat ->
      assigned_to "regular_verbs" v (get_verb_categories verbs))
  /\ (v ∈ linking_verbs ->
      assigned_to "linking_verbs" v (get_verb_categories verbs))
  /\ (v ∈ helping_verbs ->
      assigned_to "helping_verbs" v (get_verb_categories verbs)).
Proof.
  intros Hv. repeat split.
  - intros Hl Hh E. apply (assigned_iff verbs Action).
    split; [now apply classify_action | assumption].
  - intros E Hlen. apply (assigned_iff verbs Regular).
    split; [now apply classify_regular | assumption].
  - intros Hin. apply (assigned_iff verbs Linking).
    split; [| assumption]. apply classify_linking.
    now rewrite linking_lowercase.
  - intros Hin. apply (assigned_iff verbs Helping).
    split; [| assumption]. apply classify_helping.
    now rewrite helping_lowercase.
Qed.


Lemma not_member (x : string) (X : gset string) :
  bool_decide (x ∈ X) = false -> x ∉ X.
Proof. apply bool_decide_eq_false. Qed.

Lemma suffix_and_lookup_rules_witness :
  assigned_to "action_verbs" "sleeping"
    (get_verb_categories ["is"; "sleeping"; "walked"; "has"])
  /\ assigned_to "regular_verbs" "walked"
       (get_verb_categories ["is"; "sleeping"; "walked"; "has"]).
Proof.
  split.
  - apply (suffix_and_lookup_rules ["is"; "sleeping"; "walked"; "has"]
             "sleeping").
    + apply list_elem_of_In. simpl. tauto.
    + apply not_member. vm_compute. reflexivity.
    + apply not_member. vm_compute. reflexivity.
    + reflexivity.
  - apply (suffix_and_lookup_rules ["is"; "sleeping"; "walked"; "has"]
             "walked").
    + apply list_elem_of_In. simpl. tauto.
    + reflexivity.
    + simpl. lia.
Defined.

(** C4 as the specification words it fails on "being": the verb ends in
    "ing", yet it is a linking verb and not an action verb. *)
Lemma being_is_linking_not_action :
  endswith "being" "ing" = true
  /\ get_verb_categories ["being"] !! "action_verbs" = Some []
  /\ get_verb_categories ["being"] !! "linking_verbs" = Some ["being"]
  /\ ~ assigned_to "action_verbs" "being" (get_verb_categories ["being"]).
Proof.
  split; [reflexivity |].
  split; [vm_compute; reflexivity |].
  split; [vm_compute; reflexivity |].
  intros (l & Hl & Hin).
  assert (E : get_verb_categories ["being"] !! "action_verbs" = Some [])
    by (vm_compute; reflexivity).
  rewrite E in Hl. injection Hl as <-. now apply not_elem_of_nil in Hin.
Qed.


End CategoryProps.

(* ===================================================================== *)
(** * Properties of computations in [M]                                   *)
(* ===================================================================== *)

Module MFacts.
Import Py.

Lemma bind_returned {A B} (m : M A) (k : A -> M B) w w' a :
  m w = (w', Returned a) -> bind m k w = k a w'.
Proof. intros E. unfold bind. now rewrite E. Qed.

Lemma bind_raised {A B} (m : M A) (k : A -> M B) w w' e :
  m w = (w', Raised e) -> bind m k w = (w', Raised e).
Proof. intros E. unfold bind. now rewrite E. Qed.

Lemma bind_returned_inv {A B} (m : M A) (k : A -> M B) w w2 b :
  bind m k w = (w2, Returned b) ->
  exists w1 a, m w = (w1, Returned a) /\ k a w1 = (w2, Returned b).
Proof.
  unfold bind. destruct (m w) as [w1 [a | e]]; [eauto | discriminate].
Qed.

Lemma bind_raised_inv {A B} (m : M A) (k : A -> M B) w w2 e :
  bind m k w = (w2, Raised e) ->
  m w = (w2, Raised e)
  \/ exists w1 a, m w = (w1, Returned a) /\ k a w1 = (w2, Raised e).
Proof.
  unfold bind. destruct (m w) as [w1 [a | e']]; [right; eauto |].
  intros [= <- <-]. now left.
Qed.

Lemma call_returned_inv {A} (r : outcome A) w w' a :
  call r w = (w', Returned a) -> w' = w /\ r = Returned a.
Proof. unfold call. intros [= <- ->]. now split. Qed.

Lemma call_world {A} (r : outcome A) w w' o :
  call r w = (w', o) -> w' = w /\ r = o.
Proof. unfold call. intros [= <- ->]. now split. Qed.

Lemma ret_inv {A} (a b : A) w w' :
  ret a w = (w', Returned b) -> w' = w /\ b = a.
Proof. unfold ret. intros [= <- ->]. now split. Qed.

(** The handler of the package never returns. *)
Lemma log_and_reraise_eq {A} what e w :
  @log_and_reraise A what e w
  = (World (logged w ++ [(ERROR, what +:+ ": " +:+ exn_message e)]) (files w),
     Raised e).
Proof. reflexivity. Qed.

Lemma try_returned_inv {A} (body : M A) what w w' a :
  try_except_Exception body (log_and_reraise what) w = (w', Returned a) ->
  body w = (w', Returned a).
Proof.
  unfold try_except_Exception. destruct (body w) as [w1 [b | e]].
  - now intros [= <- <-].
  - destruct (is_Exception e); [rewrite log_and_reraise_eq |]; discriminate.
Qed.

Lemma try_returned {A} (body : M A) handler w w' a :
  body w = (w', Returned a) ->
  try_except_Exception body handler w = (w', Returned a).
Proof. intros E. unfold try_except_Exception. now rewrite E. Qed.

Lemma try_raised_Exception {A} (body : M A) what w w' e :
  body w = (w', Raised e) -> is_Exception e = true ->
  try_except_Exception body (log_and_reraise what) w
  = (World (logged w' ++ [(ERROR, what +:+ ": " +:+ exn_message e)])
       (files w'),
     Raised e).
Proof.
  intros E He. unfold try_except_Exception. rewrite E, He.
  apply log_and_reraise_eq.
Qed.

Lemma try_raised_other {A} (body : M A) handler w w' e :
  body w = (w', Raised e) -> is_Exception e = false ->
  try_except_Exception body handler w = (w', Raised e).
Proof. intros E He. unfold try_except_Exception. now rewrite E, He. Qed.

(** What a [try] of the package raises was raised by its body. *)
Lemma try_raised_inv {A} (body : M A) what w w' e :
  try_except_Exception body (log_and_reraise what) w = (w', Raised e) ->
  exists w1, body w = (w1, Raised e).
Proof.
  unfold try_except_Exception. destruct (body w) as [w1 [b | e']].
  - discriminate.
  - destruct (is_Exception e').
    + rewrite log_and_reraise_eq. intros [= _ <-]. eauto.
    + intros [= _ <-]. eauto.
Qed.

(** ** Sums *)

Lemma fold_add (l : list nat) (n : nat) :
  fold_left Nat.add l n = (n + fold_left Nat.add l 0)%nat.
Proof.
  revert n. induction l as [|x l IH]; intros n; simpl; [lia |].
  rewrite (IH (n + x)%nat), (IH x). lia.
Qed.

Lemma py_sum_cons (x : nat) (l : list nat) :
  py_sum (x :: l) = (x + py_sum l)%nat.
Proof. unfold py_sum. simpl. apply fold_add. Qed.

Lemma py_sum_app (l1 l2 : list nat) :
  py_sum (l1 ++ l2) = (py_sum l1 + py_sum l2)%nat.
Proof.
  induction l1 as [|x l1 IH]; [reflexivity |].
  simpl app. rewrite !py_sum_cons, IH. lia.
Qed.

Lemma py_sum_ones {A} (l : list A) :
  py_sum (map (fun _ => 1%nat) l) = length l.
Proof.
  induction l as [|x l IH]; [reflexivity |].
  simpl map. rewrite py_sum_cons, IH. reflexivity.
Qed.

End MFacts.

(* ===================================================================== *)
(** * Properties of [VerbAnalyzer.extract_verbs]                          *)
(* ===================================================================== *)

Module VerbProps.
Import Py VerbAnalyzer MFacts.

Section WithNLTK.
Context `{NLTK}.

(** Tokenizing and tagging one string, as the code does for the text and
    for each sentence. *)
Definition tag_text (s : string) : outcome (list (string * string)) :=
  match word_tokenize s with
  | Returned ws => pos_tag ws "universal"
  | Raised e => Raised e
  end.

(** The entry that the loop appends for a numbered sentence. *)
Definition entry_of (item : nat * string) (tagged : list (string * string))
    : Sentence.t :=
  {| Sentence.sentence_number := fst item;
     Sentence.sentence := snd item;
     Sentence.verbs := verbs_of tagged;
     Sentence.verb_count := length (verbs_of tagged) |}.

Definition entries_of (items : list (nat * string))
    (taggeds : list (list (string * string))) : list Sentence.t :=
  zip_with entry_of items taggeds.

Lemma analyze_sentence_inv item acc w w' r :
  analyze_sentence item acc w = (w', Returned r) ->
  w' = w /\ exists tagged,
    tag_text (snd item) = Returned tagged /\ r = acc ++ [entry_of item tagged].
Proof.
  destruct item as [i s]. unfold analyze_sentence.
  intros (w1 & ws & Hws & Hk)%bind_returned_inv.
  apply call_returned_inv in Hws as [-> Hws].
  apply bind_returned_inv in Hk as (w2 & tagged & Htag & Hk).
  apply call_returned_inv in Htag as [-> Htag].
  apply ret_inv in Hk as [-> ->].
  split; [reflexivity |]. exists tagged. split; [| reflexivity].
  unfold tag_text. simpl. now rewrite Hws.
Qed.

Lemma analyze_sentence_returns item acc w tagged :
  tag_text (snd item) = Returned tagged ->
  analyze_sentence item acc w = (w, Returned (acc ++ [entry_of item tagged])).
Proof.
  destruct item as [i s]. unfold tag_text, analyze_sentence. simpl.
  destruct (word_tokenize s) as [ws |] eqn:Ews; [| discriminate].
  intros Htag. unfold bind, call. now rewrite Htag.
Qed.

Lemma sentences_loop_inv items :
  forall acc w w' r,
    for_in items analyze_sentence acc w = (w', Returned r) ->
    w' = w /\ exists taggeds,
      Forall2 (fun item t => tag_text (snd item) = Returned t) items taggeds
      /\ r = acc ++ entries_of items taggeds.
Proof.
  induction items as [|item items IH]; intros acc w w' r.
  - simpl. intros [-> ->]%ret_inv. split; [reflexivity |].
    exists []. split; [constructor | now rewrite app_nil_r].
  - simpl. intros (w1 & acc1 & Hone & Hrest)%bind_returned_inv.
    apply analyze_sentence_inv in Hone as [-> (tagged & Htag & ->)].
    apply IH in Hrest as [-> (taggeds & Hall & ->)].
    split; [reflexivity |]. exists (tagged :: taggeds).
    split; [now constructor |]. now rewrite <- app_assoc.
Qed.

Lemma sentences_loop_returns items taggeds :
  Forall2 (fun item t => tag_text (snd item) = Returned t) items taggeds ->
  forall acc w,
    for_in items analyze_sentence acc w
    = (w, Returned (acc ++ entries_of items taggeds)).
Proof.
  induction 1 as [|item t items taggeds Htag Hall IH]; intros acc w.
  - simpl. now rewrite app_nil_r.
  - simpl. rewrite (bind_returned _ _ _ _ _ (analyze_sentence_returns _ _ _ _ Htag)).
    rewrite IH. now rewrite <- app_assoc.
Qed.

Lemma entries_length items taggeds :
  Forall2 (fun item t => tag_text (snd item) = Returned t) items taggeds ->
  length (entries_of items taggeds) = length items.
Proof.
  intros Hall. unfold entries_of. rewrite length_zip_with.
  apply Forall2_length in Hall. lia.
Qed.

Lemma enumerate_length {A} (l : list A) start :
  length (enumerate l start) = length l.
Proof. unfold enumerate. rewrite length_combine, length_seq. lia. Qed.

(** The record that [extract_verbs] builds from what the library calls
    returned. *)
Definition analysis_of (text : string) (sentences words : list string)
    (tagged_words : list (string * string))
    (sentence_analysis : list Sentence.t) : analysis :=
  let verb_counts := Counter (verbs_of tagged_words) in
  {| text := text;
     sentences := sentences;
     total_words := length words;
     total_sentences := length sentences;
     verbs := keys verb_counts;
     verb_counts := verb_counts;
     total_unique_verbs := length (keys verb_counts);
     total_verb_instances := py_sum (values verb_counts);
     sentence_analysis := sentence_analysis;
     sentences_with_verbs :=
       count_if (fun s => (0 <? Sentence.verb_count s)%nat) sentence_analysis;
     sentences_without_verbs :=
       count_if (fun s => (Sentence.verb_count s =? 0)%nat) sentence_analysis;
     most_common_verbs := most_common 10 verb_counts |}.

(** [extract_verbs] returns exactly when the tokenizers and the tagger
    return for the text and for every sentence; it then leaves the log and
    the files as they were. *)
Lemma extract_verbs_inv text w w' a :
  extract_verbs text w = (w', Returned a) ->
  w' = w /\ exists sents words tagged taggeds,
    sent_tokenize text = Returned sents
    /\ word_tokenize text = Returned words
    /\ pos_tag words "universal" = Returned tagged
    /\ Forall2 (fun item t => tag_text (snd item) = Returned t)
         (enumerate sents 1) taggeds
    /\ a = analysis_of text sents words tagged
             (entries_of (enumerate sents 1) taggeds).
Proof.
  intros Hbody%try_returned_inv. unfold extract_verbs_body in Hbody.
  apply bind_returned_inv in Hbody as (w1 & sents & Hs & Hbody).
  apply call_returned_inv in Hs as [-> Hs].
  apply bind_returned_inv in Hbody as (w1 & words & Hw & Hbody).
  apply call_returned_inv in Hw as [-> Hw].
  apply bind_returned_inv in Hbody as (w1 & tagged & Ht & Hbody).
  apply call_returned_inv in Ht as [-> Ht].
  apply bind_returned_inv in Hbody as (w1 & sa & Hloop & Hbody).
  apply sentences_loop_inv in Hloop as [-> (taggeds & Hall & ->)].
  apply ret_inv in Hbody as [-> ->].
  split; [reflexivity |]. exists sents, words, tagged, taggeds.
  repeat split; assumption.
Qed.

Lemma extract_verbs_returns text w sents words tagged taggeds :
  sent_tokenize text = Returned sents ->
  word_tokenize text = Returned words ->
  pos_tag words "universal" = Returned tagged ->
  Forall2 (fun item t => tag_text (snd item) = Returned t)
    (enumerate sents 1) taggeds ->
  extract_verbs text w
  = (w, Returned (analysis_of text sents words tagged
                    (entries_of (enumerate sents 1) taggeds))).
Proof.
  intros Hs Hw Ht Hall. apply try_returned. unfold extract_verbs_body.
  unfold bind at 1, call at 1. rewrite Hs.
  unfold bind at 1, call at 1. rewrite Hw.
  unfold bind at 1, call at 1. rewrite Ht.
  rewrite (bind_returned _ _ _ _ _ (sentences_loop_returns _ _ Hall [] w)).
  reflexivity.
Qed.

(** ** Counting *)

Lemma count_if_length test (l : list Sentence.t) :
  count_if test l = length (List.filter test l).
Proof. unfold count_if. apply py_sum_ones. Qed.

Lemma with_without_length (l : list Sentence.t) :
  (count_if (fun s => (0 <? Sentence.verb_count s)%nat) l
   + count_if (fun s => (Sentence.verb_count s =? 0)%nat) l = length l)%nat.
Proof.
  rewrite !count_if_length. induction l as [|s l IH]; [reflexivity |].
  simpl. destruct (Sentence.verb_count s); simpl; lia.
Qed.

Lemma counter_incr_sum (c : dict nat) (k : string) :
  py_sum (values (counter_incr c k)) = S (py_sum (values c)).
Proof.
  unfold counter_incr. induction c as [|[k' v'] c IH]; [reflexivity |].
  simpl. destruct (String.eqb k' k).
  - simpl. unfold values. simpl. now rewrite !py_sum_cons.
  - unfold values in *. simpl. rewrite !py_sum_cons, IH. lia.
Qed.

Lemma counter_fold_sum (l : list string) :
  forall c, py_sum (values (fold_left counter_incr l c))
            = (length l + py_sum (values c))%nat.
Proof.
  induction l as [|k l IH]; intros c; [reflexivity |].
  simpl. rewrite IH, counter_incr_sum. lia.
Qed.

(** The counts of a [Counter] add up to the number of elements counted. *)
Lemma counter_sum (l : list string) : py_sum (values (Counter l)) = length l.
Proof. unfold Counter. rewrite counter_fold_sum. simpl. unfold py_sum. simpl. lia. Qed.

(** C2: in a returned analysis, the sentences with verbs and the
    sentences without verbs add up to the number of sentences. *)
Theorem with_plus_without_is_total (text : string) (w w' : world)
    (a : analysis) :
  extract_verbs text w = (w', Returned a) ->
  (sentences_with_verbs a + sentences_without_verbs a
   = total_sentences a)%nat.
Proof.
  intros (_ & sents & words & tagged & taggeds & _ & _ & _ & Hall & ->)
    %extract_verbs_inv.
  simpl. rewrite with_without_length.
  rewrite (entries_length _ _ Hall). apply enumerate_length.
Qed.

(** ** Sentence by sentence *)

Lemma verbs_of_app (t1 t2 : list (string * string)) :
  verbs_of (t1 ++ t2) = verbs_of t1 ++ verbs_of t2.
Proof. unfold verbs_of. now rewrite List.filter_app, map_app. Qed.

Lemma verbs_of_concat (taggeds : list (list (string * string))) :
  length (verbs_of (List.concat taggeds))
  = py_sum (map (fun t => length (verbs_of t)) taggeds).
Proof.
  induction taggeds as [|t taggeds IH]; [reflexivity |].
  simpl. rewrite verbs_of_app, length_app, py_sum_cons, IH. reflexivity.
Qed.

Lemma tagged_numbered (sents : list string) taggeds :
  Forall2 (fun s t => tag_text s = Returned t) sents taggeds ->
  forall start,
    Forall2 (fun item t => tag_text (snd item) = Returned t)
      (enumerate sents start) taggeds.
Proof.
  unfold enumerate.
  induction 1 as [|s t sents taggeds Hs Hall IH]; intros start; simpl;
    constructor; [assumption | apply IH].
Qed.

Lemma entries_verb_counts items taggeds :
  length items = length taggeds ->
  map Sentence.verb_count (entries_of items taggeds)
  = map (fun t => length (verbs_of t)) taggeds.
Proof.
  unfold entries_of. revert taggeds.
  induction items as [|item items IH]; intros [|t taggeds] Hlen;
    try discriminate; [reflexivity |].
  simpl. f_equal. apply IH. simpl in Hlen. lia.
Qed.

Lemma tag_text_inv s tagged :
  tag_text s = Returned tagged ->
  exists words, word_tokenize s = Returned words
                /\ pos_tag words "universal" = Returned tagged.
Proof.
  unfold tag_text. destruct (word_tokenize s) as [ws |]; [eauto | discriminate].
Qed.

(** C1, as the code has it: when the tagged words of the whole text are
    the tagged words of its sentences one after the other, [extract_verbs]
    returns and the total number of verb instances is the sum of the verb
    counts of the sentences. *)
Theorem total_is_sum_when_tagging_distributes (text : string) (w : world)
    (sents : list string) (tagged : list (string * string))
    (taggeds : list (list (string * string))) :
  sent_tokenize text = Returned sents ->
  tag_text text = Returned tagged ->
  Forall2 (fun s t => tag_text s = Returned t) sents taggeds ->
  tagged = List.concat taggeds ->
  exists a,
    extract_verbs text w = (w, Returned a)
    /\ total_verb_instances a
       = py_sum (map Sentence.verb_count (sentence_analysis a)).
Proof.
  intros Hs (words & Hw & Ht)%tag_text_inv Hall ->.
  pose proof (tagged_numbered _ _ Hall 1%nat) as Hnum.
  eexists. split.
  - exact (extract_verbs_returns text w _ _ _ _ Hs Hw Ht Hnum).
  - simpl. rewrite counter_sum, verbs_of_concat.
    rewrite entries_verb_counts; [reflexivity |].
    now apply Forall2_length in Hnum.
Qed.

Lemma count_if_none test (l : list Sentence.t) :
  Forall (fun s => test s = false) l -> count_if test l = 0%nat.
Proof.
  intros Hall. rewrite count_if_length.
  induction Hall as [|s l Hs Hall IH]; [reflexivity |].
  simpl. now rewrite Hs.
Qed.

Lemma entries_without_verbs items taggeds :
  Forall (fun t => verbs_of t = []) taggeds ->
  Forall (fun s => (0 <? Sentence.verb_count s)%nat = false)
    (entries_of items taggeds).
Proof.
  unfold entries_of. intros Hall. revert items.
  induction Hall as [|t taggeds Ht Hall IH]; intros [|item items]; simpl;
    constructor.
  - simpl. now rewrite Ht.
  - apply IH.
Qed.


End WithNLTK.

(** ** The theorems at work, on the stand-in tokenizer and taggers *)

Import Doubles.

Lemma with_plus_without_is_total_witness :
  exists a,
    extract_verbs (H := lexicon_nltk) sample_text w0 = (w0, Returned a)
    /\ (sentences_with_verbs a + sentences_without_verbs a
        = total_sentences a)%nat.
Proof.
  eexists. split.
  - vm_compute. reflexivity.
  - apply (with_plus_without_is_total (H := lexicon_nltk) sample_text w0 w0).
    vm_compute. reflexivity.
Defined.

(** C1 as the specification words it fails when a tag depends on what
    comes before the word: with the positional tagger, the text as a whole
    has one verb instance and its two sentences have one each. *)
Lemma total_differs_from_sum_of_sentences :
  exists a,
    extract_verbs (H := positional_nltk) "Stop. Run." w0 = (w0, Returned a)
    /\ total_verb_instances a = 1%nat
    /\ py_sum (map Sentence.verb_count (sentence_analysis a)) = 2%nat
    /\ total_verb_instances a
       <> py_sum (map Sentence.verb_count (sentence_analysis a)).
Proof.
  eexists. split; [vm_compute; reflexivity |].
  split; [reflexivity |]. split; [reflexivity |]. vm_compute. discriminate.
Qed.

Lemma total_is_sum_when_tagging_distributes_witness :
  exists a,
    extract_verbs (H := lexicon_nltk) sample_text w0 = (w0, Returned a)
    /\ total_verb_instances a
       = py_sum (map Sentence.verb_count (sentence_analysis a)).
Proof.
  apply (total_is_sum_when_tagging_distributes (H := lexicon_nltk)
           sample_text w0
           ["The cat is sleeping on the mat."; "It dreams about chasing mice."]
           (map tag_word (words_of sample_text))
           [map tag_word (words_of "The cat is sleeping on the mat.");
            map tag_word (words_of "It dreams about chasing mice.")]).
  - vm_compute. reflexivity.
  - vm_compute. reflexivity.
  - repeat constructor.
  - vm_compute. reflexivity.
Defined.



End VerbProps.

(* ===================================================================== *)
(** * Properties of [TextExtractor.extract_text]                          *)
(* ===================================================================== *)

Module ExtractProps.
Import Py TextExtractor MFacts.

(** One step of a computation that returned: a library call. *)
Ltac called H x Hx :=
  let w1 := fresh "w" in
  apply bind_returned_inv in H as (w1 & x & Hx & H);
  apply call_returned_inv in Hx as [-> Hx].

Section WithOCR.
Context `{OCR}.

Definition method_names : list string :=
  ["simple_threshold"; "adaptive_threshold"; "otsu_threshold";
   "gaussian_otsu"].

(** What the loop of [extract_text] does with one processed image. *)
Definition ocr_of_image (img : ndarray) : outcome string :=
  match Image_fromarray img with
  | Returned pil => image_to_string pil
  | Raised e => Raised e
  end.

(** An entry of [all_methods] records the OCR output of a processed image
    under the name of its method. *)
Definition records (p : string * ndarray) (m : string * method_result)
    : Prop :=
  fst m = fst p
  /\ ocr_of_image (snd p) = Returned (mr_text (snd m))
  /\ mr_length (snd m) = len (strip (mr_text (snd m))).

Lemma preprocess_image_inv path w w' processed :
  preprocess_image path w = (w', Returned processed) ->
  w' = w /\ exists t1 t2 t3 t4,
    processed = [("simple_threshold", t1); ("adaptive_threshold", t2);
                 ("otsu_threshold", t3); ("gaussian_otsu", t4)].
Proof.
  intros Hbody%try_returned_inv. unfold preprocess_image_body in Hbody.
  called Hbody img Himg. destruct img as [img |]; [| discriminate].
  called Hbody gray Hgray. called Hbody t1 Ht1. called Hbody t2 Ht2.
  called Hbody t3 Ht3. called Hbody blurred Hblur. called Hbody t4 Ht4.
  apply ret_inv in Hbody as [-> ->].
  split; [reflexivity |]. now exists t1, t2, t3, t4.
Qed.

Lemma ocr_method_inv name img results w w' results' :
  ocr_method (name, img) results w = (w', Returned results') ->
  w' = w /\ exists text,
    ocr_of_image img = Returned text
    /\ results' = dict_set name
                    {| mr_text := text; mr_length := len (strip text) |}
                    results.
Proof.
  unfold ocr_method. intros Hm.
  called Hm pil Hpil. called Hm text Htext.
  apply ret_inv in Hm as [-> ->].
  split; [reflexivity |]. exists text. split; [| reflexivity].
  unfold ocr_of_image. now rewrite Hpil.
Qed.

(** The first of the longest among four lengths, as [max] finds it. *)
Lemma first_longest_of_four (r1 r2 r3 r4 : method_result) :
  let all := [("simple_threshold", r1); ("adaptive_threshold", r2);
              ("otsu_threshold", r3); ("gaussian_otsu", r4)] in
  exists name pre best post,
    max_by (length_of all) (keys all) = Returned name
    /\ subscript all name = Returned best
    /\ all = pre ++ (name, best) :: post
    /\ Forall (fun m => (mr_length (snd m) < mr_length best)%nat) pre
    /\ Forall (fun m => (mr_length (snd m) <= mr_length best)%nat) post.
Proof.
  intros all. subst all. unfold max_by, keys, length_of, subscript. simpl.
  destruct (mr_length r1 <? mr_length r2)%nat eqn:E12; simpl;
    [destruct (mr_length r2 <? mr_length r3)%nat eqn:E23
    |destruct (mr_length r1 <? mr_length r3)%nat eqn:E13]; simpl;
    [destruct (mr_length r3 <? mr_length r4)%nat eqn:E34
    |destruct (mr_length r2 <? mr_length r4)%nat eqn:E24
    |destruct (mr_length r3 <? mr_length r4)%nat eqn:E34
    |destruct (mr_length r1 <? mr_length r4)%nat eqn:E14]; simpl;
    repeat match goal with
           | E : (_ <? _)%nat = true |- _ => apply Nat.ltb_lt in E
           | E : (_ <? _)%nat = false |- _ => apply Nat.ltb_ge in E
           end.
  - exists "gaussian_otsu", [("simple_threshold", r1);
      ("adaptive_threshold", r2); ("otsu_threshold", r3)], r4, [].
    repeat split; repeat constructor; simpl; lia.
  - exists "otsu_threshold", [("simple_threshold", r1);
      ("adaptive_threshold", r2)], r3, [("gaussian_otsu", r4)].
    repeat split; repeat constructor; simpl; lia.
  - exists "gaussian_otsu", [("simple_threshold", r1);
      ("adaptive_threshold", r2); ("otsu_threshold", r3)], r4, [].
    repeat split; repeat constructor; simpl; lia.
  - exists "adaptive_threshold", [("simple_threshold", r1)], r2,
      [("otsu_threshold", r3); ("gaussian_otsu", r4)].
    repeat split; repeat constructor; simpl; lia.
  - exists "gaussian_otsu", [("simple_threshold", r1);
      ("adaptive_threshold", r2); ("otsu_threshold", r3)], r4, [].
    repeat split; repeat constructor; simpl; lia.
  - exists "otsu_threshold", [("simple_threshold", r1);
      ("adaptive_threshold", r2)], r3, [("gaussian_otsu", r4)].
    repeat split; repeat constructor; simpl; lia.
  - exists "gaussian_otsu", [("simple_threshold", r1);
      ("adaptive_threshold", r2); ("otsu_threshold", r3)], r4, [].
    repeat split; repeat constructor; simpl; lia.
  - exists "simple_threshold", [], r1, [("adaptive_threshold", r2);
      ("otsu_threshold", r3); ("gaussian_otsu", r4)].
    repeat split; repeat constructor; simpl; lia.
Qed.

(** C7: with preprocessing, a returned result records the OCR output and
    the stripped length of each of the four processed images, under the
    four method names in the order of the mapping; the best method is an
    entry of maximal length, the first such entry, and the returned text
    is its text. *)
Theorem extract_text_best_is_first_longest (path : string) (w w' : world)
    (best_text : string) (d : details) :
  extract_text path true w = (w', Returned (best_text, d)) ->
  w' = w /\ preprocessed d = true
  /\ exists processed,
       preprocess_image path w = (w, Returned processed)
       /\ keys processed = method_names
       /\ Forall2 records processed (all_methods d)
       /\ exists pre best post,
            all_methods d = pre ++ (best_method d, best) :: post
            /\ best_text = mr_text best
            /\ Forall (fun m => (mr_length (snd m) < mr_length best)%nat) pre
            /\ Forall (fun m => (mr_length (snd m) <= mr_length best)%nat)
                 post.
Proof.
  intros Hbody%try_returned_inv. unfold extract_text_body in Hbody.
  apply bind_returned_inv in Hbody as (w1 & processed & Hpre & Hbody).
  pose proof Hpre as Hprocessed.
  apply preprocess_image_inv in Hpre as [-> (t1 & t2 & t3 & t4 & ->)].
  apply bind_returned_inv in Hbody as (w1 & results & Hloop & Hbody).
  unfold items in Hloop. cbn [for_in] in Hloop.
  apply bind_returned_inv in Hloop as (w2 & x1 & H1 & Hloop).
  apply ocr_method_inv in H1 as [-> (text1 & Ho1 & ->)].
  apply bind_returned_inv in Hloop as (w2 & x2 & H2 & Hloop).
  apply ocr_method_inv in H2 as [-> (text2 & Ho2 & ->)].
  apply bind_returned_inv in Hloop as (w2 & x3 & H3 & Hloop).
  apply ocr_method_inv in H3 as [-> (text3 & Ho3 & ->)].
  apply bind_returned_inv in Hloop as (w2 & x4 & H4 & Hloop).
  apply ocr_method_inv in H4 as [-> (text4 & Ho4 & ->)].
  apply ret_inv in Hloop as [-> ->]. simpl dict_set in Hbody.
  destruct (first_longest_of_four
              {| mr_text := text1; mr_length := len (strip text1) |}
              {| mr_text := text2; mr_length := len (strip text2) |}
              {| mr_text := text3; mr_length := len (strip text3) |}
              {| mr_text := text4; mr_length := len (strip text4) |})
    as (name & pre & best & post & Hmax & Hsub & Hall & Hpre & Hpost).
  called Hbody name' Hname. rewrite Hmax in Hname. injection Hname as <-.
  called Hbody best' Hbest. rewrite Hsub in Hbest. injection Hbest as <-.
  apply ret_inv in Hbody as [-> [= -> ->]].
  split; [reflexivity |]. split; [reflexivity |].
  eexists. split; [exact Hprocessed |]. split; [reflexivity |].
  split.
  - repeat constructor; assumption.
  - exists pre, best, post. simpl. repeat split; assumption.
Qed.

End WithOCR.

Import Doubles.

Lemma extract_text_best_is_first_longest_witness :
  exists pre best post,
    [("simple_threshold", {| mr_text := "The cat "; mr_length := 7 |});
     ("adaptive_threshold", {| mr_text := "The cat is"; mr_length := 10 |});
     ("otsu_threshold", {| mr_text := " The cat is "; mr_length := 10 |});
     ("gaussian_otsu", {| mr_text := "Th"; mr_length := 2 |})]
    = pre ++ ("adaptive_threshold", best) :: post
    /\ "The cat is" = mr_text best
    /\ Forall (fun m => (mr_length (snd m) < mr_length best)%nat) pre
    /\ Forall (fun m => (mr_length (snd m) <= mr_length best)%nat) post.
Proof.
  destruct (extract_text_best_is_first_longest (H := named_ocr)
              "scan.png" w0 w0 "The cat is"
              {| best_method := "adaptive_threshold";
                 all_methods :=
                   [("simple_threshold",
                     {| mr_text := "The cat "; mr_length := 7 |});
                    ("adaptive_threshold",
                     {| mr_text := "The cat is"; mr_length := 10 |});
                    ("otsu_threshold",
                     {| mr_text := " The cat is "; mr_length := 10 |});
                    ("gaussian_otsu",
                     {| mr_text := "Th"; mr_length := 2 |})];
                 preprocessed := true |})
    as (_ & _ & processed & _ & _ & _ & Hbest).
  - vm_compute. reflexivity.
  - exact Hbest.
Defined.

End ExtractProps.

(* ===================================================================== *)
(** * Error handling                                                      *)
(* ===================================================================== *)

Module ErrorProps.
Import Py TextExtractor VerbAnalyzer Utils MFacts.

(** [op] is [body] under the handler of the package: what [body] raises,
    [op] raises, after one error record when it is an [Exception]. *)
Definition logs_and_reraises {A} (what : string) (body op : M A) : Prop :=
  forall w w' e,
    body w = (w', Raised e) ->
    op w
    = (if is_Exception e
       then World (logged w' ++ [(ERROR, what +:+ ": " +:+ exn_message e)])
              (files w')
       else w',
       Raised e).

(** [m] writes nothing to the log, whether it returns or raises. *)
Definition never_logs {A} (m : M A) : Prop :=
  forall w w' o, m w = (w', o) -> logged w' = logged w.

Lemma try_logs_and_reraises {A} what (body : M A) :
  logs_and_reraises what body
    (try_except_Exception body (log_and_reraise what)).
Proof.
  intros w w' e Hbody. destruct (is_Exception e) eqn:He.
  - now apply try_raised_Exception.
  - now apply try_raised_other.
Qed.

Lemma never_logs_ret {A} (a : A) : never_logs (ret a).
Proof. intros w w' o [= <- _]. reflexivity. Qed.

Lemma never_logs_call {A} (r : outcome A) : never_logs (call r).
Proof. intros w w' o [= <- _]. reflexivity. Qed.

Lemma never_logs_truncate path : never_logs (truncate_file path).
Proof. intros w w' o [= <- _]. reflexivity. Qed.

Lemma never_logs_append path content : never_logs (append_file path content).
Proof. intros w w' o [= <- _]. reflexivity. Qed.

Lemma never_logs_bind {A B} (m : M A) (k : A -> M B) :
  never_logs m -> (forall a, never_logs (k a)) -> never_logs (bind m k).
Proof.
  intros Hm Hk w w' o. unfold bind.
  destruct (m w) as [w1 [a | e]] eqn:E.
  - intros Hka. rewrite (Hk a _ _ _ Hka). exact (Hm _ _ _ E).
  - intros [= <- _]. exact (Hm _ _ _ E).
Qed.

Lemma never_logs_for_in {A S} (l : list A) (body : A -> S -> M S) :
  (forall x s, never_logs (body x s)) -> forall s, never_logs (for_in l body s).
Proof.
  intros Hbody. induction l as [|x l IH]; intros s; simpl.
  - apply never_logs_ret.
  - apply never_logs_bind; [apply Hbody | apply IH].
Qed.

Create HintDb nolog.

#[local] Hint Resolve never_logs_ret never_logs_call never_logs_truncate
  never_logs_append : nolog.

Section WithHost.
Context `{Host}.

Lemma never_logs_open_w path : never_logs (open_w path).
Proof. apply never_logs_bind; auto with nolog. Qed.

Lemma never_logs_f_write path content : never_logs (f_write path content).
Proof. apply never_logs_bind; auto with nolog. Qed.

Lemma save_results_never_logs results output_dir :
  never_logs (save_results results output_dir).
Proof.
  unfold save_results.
  repeat (apply never_logs_bind; [| intros ?]);
    try apply never_logs_open_w; try apply never_logs_f_write;
    auto with nolog.
  - apply never_logs_for_in. intros. apply never_logs_f_write.
  - destruct (get_sentence_analysis results); [| auto with nolog].
    repeat (apply never_logs_bind; [| intros ?]);
      try apply never_logs_open_w; try apply never_logs_f_write;
      auto with nolog.
Qed.

(** An error of the first step of [save_results] reaches the caller as it
    is, with the world untouched. *)
Lemma save_results_makedirs_fails results output_dir e w :
  os_makedirs output_dir = Raised e ->
  save_results results output_dir w = (w, Raised e).
Proof. intros E. unfold save_results, bind, call. now rewrite E. Qed.

End WithHost.


Import Doubles.



End ErrorProps.

(* ===================================================================== *)
(** * More on [TextExtractor.clean_text]                                  *)
(* ===================================================================== *)

Module CleanTextEdges.
Import Py TextExtractor StrFacts CleanTextProps.

Lemma rstrip_idempotent (s : string) : rstrip (rstrip s) = rstrip s.
Proof.
  induction s as [|c s IH]; [reflexivity |].
  destruct (isspace c) eqn:Ec.
  - rewrite rstrip_space by assumption.
    destruct (rstrip s) as [|a r] eqn:Er; [reflexivity |].
    rewrite rstrip_space by assumption. now rewrite IH.
  - rewrite rstrip_nonspace by assumption.
    rewrite rstrip_nonspace by assumption. now rewrite IH.
Qed.

Lemma rstrip_join_split (s : string) :
  rstrip (join " " (split s)) = join " " (split s).
Proof.
  unfold split. destruct (join_split_from_rstrip s) as [-> _].
  apply rstrip_idempotent.
Qed.

Lemma lstrip_length (s : string) : (len (lstrip s) <= len s)%nat.
Proof.
  induction s as [|c s IH]; simpl; [lia |].
  destruct (isspace c); simpl; unfold len in *; lia.
Qed.

(** The result of [clean_text] has no whitespace at either end: stripping
    it again, on the left, on the right or on both sides, changes nothing,
    and its first character is not whitespace. *)
Theorem clean_text_is_stripped (s : string) :
  lstrip (clean_text s) = clean_text s
  /\ rstrip (clean_text s) = clean_text s
  /\ strip (clean_text s) = clean_text s
  /\ (forall c, String.get 0 (clean_text s) = Some c -> isspace c = false).
Proof.
  assert (Hl : lstrip (clean_text s) = clean_text s).
  { rewrite clean_text_eq. apply lstrip_join, split_words. }
  assert (Hr : rstrip (clean_text s) = clean_text s).
  { rewrite clean_text_eq. apply rstrip_join_split. }
  repeat split; try assumption.
  - unfold strip. now rewrite Hr.
  - intros c Hget. destruct (clean_text s) as [|a r]; [discriminate |].
    simpl in Hget. injection Hget as ->.
    destruct (isspace c) eqn:Ec; [| reflexivity].
    simpl in Hl. rewrite Ec in Hl.
    pose proof (lstrip_length r) as Hlen. rewrite Hl in Hlen.
    unfold len in Hlen. simpl in Hlen. lia.
Qed.

Lemma split_no_visible (s : string) :
  str_filter visible s = EmptyString -> split_from EmptyString s = [].
Proof.
  induction s as [|c s IH]; [reflexivity |].
  simpl. unfold visible at 1. destruct (isspace c); simpl.
  - exact IH.
  - discriminate.
Qed.

(** [clean_text] gives the empty string exactly for the texts without any
    character that is on the allow-list and is not whitespace; the empty
    text and a text of whitespace alone are such texts. *)
Theorem clean_text_empty_iff (s : string) :
  clean_text s = EmptyString
  <-> str_filter (fun c => allowed c && visible c) s = EmptyString.
Proof.
  split.
  - intros E. rewrite <- filter_filter, <- visible_join_split.
    rewrite <- clean_text_eq, E. reflexivity.
  - intros E. rewrite clean_text_eq. unfold split.
    rewrite split_no_visible; [reflexivity |].
    rewrite filter_filter. exact E.
Qed.

End CleanTextEdges.

(* ===================================================================== *)
(** * Dictionaries and counters                                           *)
(* ===================================================================== *)

Module CounterProps.
Import Py MFacts.

Lemma dict_get_set_eq {V} (k : string) (v : V) (d : dict V) :
  dict_get k (dict_set k v d) = Some v.
Proof.
  induction d as [|[k' v'] d IH]; simpl.
  - now rewrite String.eqb_refl.
  - destruct (String.eqb k' k) eqn:E; simpl; rewrite E; [reflexivity | exact IH].
Qed.

Lemma dict_get_set_ne {V} (k k' : string) (v : V) (d : dict V) :
  k <> k' -> dict_get k (dict_set k' v d) = dict_get k d.
Proof.
  intros Hne. induction d as [|[k0 v0] d IH]; simpl.
  - apply String.eqb_neq in Hne. rewrite String.eqb_sym. now rewrite Hne.
  - destruct (String.eqb k0 k') eqn:E; simpl.
    + apply String.eqb_eq in E. subst k0.
      assert (Hf : String.eqb k' k = false)
        by (apply String.eqb_neq; congruence).
      now rewrite Hf.
    + destruct (String.eqb k0 k); [reflexivity | exact IH].
Qed.

Lemma dict_get_None_keys {V} (k : string) (d : dict V) :
  dict_get k d = None <-> ~ In k (keys d).
Proof.
  induction d as [|[k' v'] d IH]; simpl; [tauto |].
  destruct (String.eqb k' k) eqn:E.
  - apply String.eqb_eq in E. split; [discriminate | tauto].
  - apply String.eqb_neq in E. rewrite IH. tauto.
Qed.

(** Assigning to a key keeps the keys in place; a new key goes last. *)
Lemma keys_dict_set {V} (k : string) (v : V) (d : dict V) :
  keys (dict_set k v d)
  = match dict_get k d with
    | Some _ => keys d
    | None => keys d ++ [k]
    end.
Proof.
  induction d as [|[k' v'] d IH]; [reflexivity |].
  cbn [dict_set dict_get]. destruct (String.eqb k' k) eqn:E; [reflexivity |].
  change (keys ((k', v') :: dict_set k v d))
    with (k' :: keys (dict_set k v d)).
  rewrite IH. now destruct (dict_get k d).
Qed.

(** The number of occurrences of [k] in [l]. *)
Definition occurrences_of (k : string) (l : list string) : nat :=
  count_occ String.string_dec l k.

Lemma counter_fold_get (k : string) (l : list string) :
  forall c,
    dict_get k (fold_left counter_incr l c)
    = match occurrences_of k l with
      | O => dict_get k c
      | n => Some (n + default 0 (dict_get k c))%nat
      end.
Proof.
  unfold occurrences_of.
  induction l as [|x l IH]; intros c; [reflexivity |].
  simpl fold_left. rewrite IH. simpl count_occ.
  destruct (String.string_dec x k) as [-> | Hne].
  - unfold counter_incr at 1 2. rewrite dict_get_set_eq. simpl.
    destruct (count_occ String.string_dec l k); f_equal; lia.
  - unfold counter_incr. rewrite dict_get_set_ne by congruence.
    reflexivity.
Qed.

(** A counter maps every element to its number of occurrences, and has no
    entry for what does not occur. *)
Lemma counter_get (k : string) (l : list string) :
  dict_get k (Counter l)
  = match occurrences_of k l with
    | O => None
    | n => Some n
    end.
Proof.
  unfold Counter. rewrite counter_fold_get. simpl.
  destruct (occurrences_of k l); [reflexivity | f_equal; lia].
Qed.

Lemma counter_fold_keys (l : list string) :
  forall c, NoDup (keys c) ->
    NoDup (keys (fold_left counter_incr l c))
    /\ forall k, In k (keys (fold_left counter_incr l c))
                 <-> In k (keys c) \/ In k l.
Proof.
  induction l as [|x l IH]; intros c Hnd; simpl; [split; [assumption | tauto] |].
  assert (Hstep : NoDup (keys (counter_incr c x))
                  /\ forall k, In k (keys (counter_incr c x))
                               <-> In k (keys c) \/ k = x).
  { unfold counter_incr. rewrite keys_dict_set.
    destruct (dict_get x c) as [n |] eqn:E.
    - split; [assumption |]. intros k. split; [tauto |].
      intros [Hk | ->]; [assumption |].
      destruct (in_dec String.string_dec x (keys c)) as [Hin | Hout];
        [assumption |].
      apply dict_get_None_keys in Hout. congruence.
    - apply dict_get_None_keys in E. split.
      + apply NoDup_ListNoDup. apply NoDup_ListNoDup in Hnd.
        apply List.NoDup_app; [assumption | repeat constructor; simpl; tauto |].
        intros k Hk [<- | []]. contradiction.
      + intros k. rewrite in_app_iff. simpl. intuition. }
  destruct Hstep as [Hnd' Hin'].
  destruct (IH _ Hnd') as [Hnd'' Hin'']. split; [assumption |].
  intros k. rewrite Hin'', Hin'. intuition.
Qed.

(** The keys of a counter are the distinct elements, each once. *)
Lemma counter_keys (l : list string) :
  NoDup (keys (Counter l)) /\ forall k, In k (keys (Counter l)) <-> In k l.
Proof.
  destruct (counter_fold_keys l [] (NoDup_nil_2)) as [Hnd Hin].
  split; [assumption |]. intros k. rewrite (Hin k). simpl. tauto.
Qed.

End CounterProps.

(* ===================================================================== *)
(** * Sorting by count                                                    *)
(* ===================================================================== *)

Module SortProps.
Import Py.

Section ByCount.
Context {A : Type} (count : A -> nat).

(** [a] comes before [b] when its count is not smaller. *)
Definition before (a b : A) : Prop := (count b <= count a)%nat.

Lemma insert_desc_perm (x : A) (l : list A) :
  insert_desc count x l ≡ₚ x :: l.
Proof.
  induction l as [|y l IH]; simpl; [reflexivity |].
  destruct (count y <? count x)%nat; [reflexivity |].
  rewrite IH. apply Permutation_swap.
Qed.

Lemma insert_desc_sorted (x : A) (l : list A) :
  StronglySorted before l -> StronglySorted before (insert_desc count x l).
Proof.
  induction l as [|y l IH]; intros Hs; simpl.
  - repeat constructor.
  - apply StronglySorted_cons in Hs as [Hy Hl].
    destruct (count y <? count x)%nat eqn:E.
    + apply Nat.ltb_lt in E. apply StronglySorted_cons. split.
      * constructor; [unfold before; lia |].
        eapply Forall_impl; [exact Hy |]. unfold before. intros z Hz. lia.
      * apply StronglySorted_cons. now split.
    + apply Nat.ltb_ge in E. apply StronglySorted_cons. split.
      * rewrite insert_desc_perm. constructor; [exact E | exact Hy].
      * now apply IH.
Qed.

Lemma sorted_fold_perm (l : list A) :
  forall acc,
    fold_left (fun acc x => insert_desc count x acc) l acc ≡ₚ acc ++ l.
Proof.
  induction l as [|x l IH]; intros acc; simpl.
  - now rewrite app_nil_r.
  - rewrite IH, insert_desc_perm. simpl. apply Permutation_middle.
Qed.

Lemma sorted_fold_sorted (l : list A) :
  forall acc, StronglySorted before acc ->
    StronglySorted before
      (fold_left (fun acc x => insert_desc count x acc) l acc).
Proof.
  induction l as [|x l IH]; intros acc Hacc; simpl; [assumption |].
  apply IH. now apply insert_desc_sorted.
Qed.

(** [sorted(xs, key=count, reverse=True)] rearranges [xs] so that counts
    never increase. *)
Lemma sorted_desc_perm (l : list A) : sorted_desc count l ≡ₚ l.
Proof. unfold sorted_desc. now rewrite sorted_fold_perm. Qed.

Lemma sorted_desc_sorted (l : list A) :
  StronglySorted before (sorted_desc count l).
Proof. apply sorted_fold_sorted. constructor. Qed.

(** Elements with the same count keep their order: among the elements of
    a given count, sorting changes nothing. *)
Lemma insert_desc_filter (n : nat) (x : A) (l : list A) :
  StronglySorted before l ->
  List.filter (fun y => (count y =? n)%nat) (insert_desc count x l)
  = List.filter (fun y => (count y =? n)%nat) l
    ++ List.filter (fun y => (count y =? n)%nat) [x].
Proof.
  induction l as [|y l IH]; intros Hs; [reflexivity |].
  apply StronglySorted_cons in Hs as [Hy Hl]. simpl insert_desc.
  destruct (count y <? count x)%nat eqn:E.
  - apply Nat.ltb_lt in E. simpl.
    destruct (count x =? n)%nat eqn:Ex; [| now rewrite app_nil_r].
    apply Nat.eqb_eq in Ex.
    assert (Hy' : (count y =? n)%nat = false) by (apply Nat.eqb_neq; lia).
    rewrite Hy'.
    assert (Hnone : List.filter (fun y => (count y =? n)%nat) l = []).
    { clear IH Hl. induction Hy as [|z l Hz Hy IHy]; [reflexivity |].
      simpl. unfold before in Hz.
      assert (Hz' : (count z =? n)%nat = false) by (apply Nat.eqb_neq; lia).
      now rewrite Hz'. }
    now rewrite Hnone.
  - simpl. rewrite (IH Hl).
    destruct (count y =? n)%nat; [reflexivity | reflexivity].
Qed.

Lemma sorted_fold_filter (n : nat) (l : list A) :
  forall acc, StronglySorted before acc ->
    List.filter (fun y => (count y =? n)%nat)
      (fold_left (fun acc x => insert_desc count x acc) l acc)
    = List.filter (fun y => (count y =? n)%nat) (acc ++ l).
Proof.
  induction l as [|x l IH]; intros acc Hacc; simpl.
  - now rewrite app_nil_r.
  - rewrite IH by now apply insert_desc_sorted.
    rewrite !List.filter_app, insert_desc_filter by assumption.
    rewrite <- app_assoc. f_equal. simpl.
    now destruct (count x =? n)%nat.
Qed.

Lemma sorted_desc_stable (n : nat) (l : list A) :
  List.filter (fun y => (count y =? n)%nat) (sorted_desc count l)
  = List.filter (fun y => (count y =? n)%nat) l.
Proof. unfold sorted_desc. rewrite sorted_fold_filter; [reflexivity | constructor]. Qed.

End ByCount.

(** [most_common(n)] gives the first [n] entries by count, or all of them
    when there are fewer: the entries are entries of the counter, their
    counts never increase, and no entry left out has a larger count than
    an entry kept. *)
Lemma most_common_top (n : nat) (c : dict nat) :
  length (most_common n c) = min n (length c)
  /\ StronglySorted (before snd) (most_common n c)
  /\ exists rest,
       most_common n c ++ rest ≡ₚ c
       /\ forall e e', e ∈ most_common n c -> e' ∈ rest ->
            (snd e' <= snd e)%nat.
Proof.
  unfold most_common, items.
  pose proof (sorted_desc_sorted snd c) as Hs.
  pose proof (sorted_desc_perm snd c) as Hp.
  rewrite <- (take_drop n (sorted_desc snd c)) in Hs.
  split; [| split].
  - rewrite length_take. now rewrite (Permutation_length Hp).
  - now apply StronglySorted_app_1_l in Hs.
  - exists (drop n (sorted_desc snd c)). split.
    + now rewrite take_drop.
    + intros e e' He He'.
      exact (StronglySorted_app_1_elem_of _ _ _ _ _ Hs He He').
Qed.

End SortProps.

(* ===================================================================== *)
(** * The analysis that [VerbAnalyzer.extract_verbs] returns              *)
(* ===================================================================== *)

Module AnalysisProps.
Import Py VerbAnalyzer MFacts VerbProps CounterProps SortProps.

Lemma lower_char_idempotent (c : ascii) :
  lower_char (lower_char c) = lower_char c.
Proof. destruct c as [[] [] [] [] [] [] [] []]; vm_compute; reflexivity. Qed.

Lemma lower_idempotent (s : string) : lower (lower s) = lower s.
Proof.
  induction s as [|c s IH]; [reflexivity |].
  simpl. now rewrite lower_char_idempotent, IH.
Qed.

Lemma verbs_of_lowercase (tagged : list (string * string)) (v : string) :
  In v (verbs_of tagged) -> lower v = v.
Proof.
  unfold verbs_of. intros (wt & <- & _)%in_map_iff. apply lower_idempotent.
Qed.

Lemma keys_values_length {V} (d : dict V) :
  length (keys d) = length d /\ length (values d) = length d.
Proof. unfold keys, values. now rewrite !length_map. Qed.

Section WithNLTK.
Context `{NLTK}.

(** The counts of a returned analysis are the numbers of occurrences among
    the words that the tagger marked as verbs in the whole text, in
    lowercase; their total is the number of those words. *)
Theorem verb_counts_count_tagged_verbs (text : string) (w w' : world)
    (a : analysis) :
  extract_verbs text w = (w', Returned a) ->
  exists tagged,
    tag_text text = Returned tagged
    /\ total_verb_instances a = length (verbs_of tagged)
    /\ forall v,
         dict_get v (verb_counts a)
         = match occurrences_of v (verbs_of tagged) with
           | O => None
           | n => Some n
           end.
Proof.
  intros (_ & sents & words & tagged & taggeds & _ & Hw & Ht & _ & ->)
    %extract_verbs_inv.
  exists tagged. split; [unfold tag_text; now rewrite Hw |].
  split; [apply counter_sum | intros v; apply counter_get].
Qed.

(** The verbs of a returned analysis are the keys of its counts: each verb
    once, in lowercase, and no more of them than verb instances. *)
Theorem unique_verbs_are_distinct_lowercase (text : string) (w w' : world)
    (a : analysis) :
  extract_verbs text w = (w', Returned a) ->
  NoDup (verbs a)
  /\ verbs a = keys (verb_counts a)
  /\ total_unique_verbs a = length (verbs a)
  /\ (total_unique_verbs a <= total_verb_instances a)%nat
  /\ (forall v, In v (verbs a) -> lower v = v)
  /\ (forall v, In v (verbs a)
                <-> exists n, dict_get v (verb_counts a) = Some (S n)).
Proof.
  intros (_ & sents & words & tagged & taggeds & _ & _ & _ & _ & ->)
    %extract_verbs_inv.
  simpl. destruct (counter_keys (verbs_of tagged)) as [Hnd Hin].
  split; [assumption |]. split; [reflexivity |]. split; [reflexivity |].
  split; [| split].
  - rewrite counter_sum. apply submseteq_length.
    apply NoDup_submseteq; [assumption |].
    intros v Hv. apply list_elem_of_In, Hin, list_elem_of_In, Hv.
  - intros v Hv. apply Hin in Hv. now apply verbs_of_lowercase in Hv.
  - intros v. rewrite Hin, counter_get. unfold occurrences_of.
    rewrite (count_occ_In String.string_dec).
    destruct (count_occ String.string_dec (verbs_of tagged) v) as [|n].
    + split; [lia | intros [n [=]]].
    + split; [eauto | lia].
Qed.

Lemma entries_sentences items taggeds :
  length items = length taggeds ->
  map Sentence.sentence (entries_of items taggeds) = map snd items
  /\ map Sentence.sentence_number (entries_of items taggeds) = map fst items
  /\ Forall (fun e => Sentence.verb_count e = length (Sentence.verbs e))
       (entries_of items taggeds).
Proof.
  unfold entries_of. revert taggeds.
  induction items as [|item items IH]; intros [|t taggeds] Hlen;
    try discriminate; [repeat split; constructor |].
  simpl in Hlen. destruct (IH taggeds) as (Hs & Hn & Hc); [lia |].
  simpl. rewrite Hs, Hn. repeat split. constructor; [reflexivity | exact Hc].
Qed.

Lemma enumerate_fst_snd {A} (l : list A) (start : nat) :
  map fst (enumerate l start) = seq start (length l)
  /\ map snd (enumerate l start) = l.
Proof.
  unfold enumerate. revert start.
  induction l as [|x l IH]; intros start; [now split |].
  simpl. destruct (IH (S start)) as [-> ->]. now split.
Qed.

(** [sentence_analysis] has one entry per sentence, in order, numbered
    from 1; the verb count of an entry is the length of its verb list. *)
Theorem sentence_analysis_follows_sentences (text : string) (w w' : world)
    (a : analysis) :
  extract_verbs text w = (w', Returned a) ->
  map Sentence.sentence (sentence_analysis a) = sentences a
  /\ map Sentence.sentence_number (sentence_analysis a)
     = seq 1 (total_sentences a)
  /\ total_sentences a = length (sentences a)
  /\ Forall (fun e => Sentence.verb_count e = length (Sentence.verbs e))
       (sentence_analysis a).
Proof.
  intros (_ & sents & words & tagged & taggeds & _ & _ & _ & Hall & ->)
    %extract_verbs_inv.
  simpl. apply Forall2_length in Hall.
  destruct (entries_sentences _ _ Hall) as (Hs & Hn & Hc).
  destruct (enumerate_fst_snd sents 1) as [Hfst Hsnd].
  rewrite Hs, Hn, Hfst, Hsnd. repeat split. exact Hc.
Qed.

(** [most_common_verbs] holds the ten entries of [verb_counts] with the
    largest counts, or all entries when there are fewer, largest count
    first: no entry left out has a larger count than an entry listed. *)
Theorem most_common_verbs_are_the_top_ten (text : string) (w w' : world)
    (a : analysis) :
  extract_verbs text w = (w', Returned a) ->
  length (most_common_verbs a) = min 10 (total_unique_verbs a)
  /\ StronglySorted (fun e e' => (snd e' <= snd e)%nat) (most_common_verbs a)
  /\ exists rest,
       most_common_verbs a ++ rest ≡ₚ verb_counts a
       /\ forall e e', e ∈ most_common_verbs a -> e' ∈ rest ->
            (snd e' <= snd e)%nat.
Proof.
  intros (_ & sents & words & tagged & taggeds & _ & _ & _ & _ & ->)
    %extract_verbs_inv.
  simpl.
  destruct (most_common_top 10 (Counter (verbs_of tagged)))
    as (Hlen & Hsorted & Hrest).
  split; [| split; assumption].
  rewrite Hlen. now rewrite (proj1 (keys_values_length _)).
Qed.

End WithNLTK.

(** ** The theorems at work on the sample text *)

Import Doubles.

Lemma verb_counts_count_tagged_verbs_witness :
  exists a,
    extract_verbs (H := lexicon_nltk) sample_text w0 = (w0, Returned a)
    /\ exists tagged,
         tag_text (H := lexicon_nltk) sample_text = Returned tagged
         /\ total_verb_instances a = length (verbs_of tagged)
         /\ forall v,
              dict_get v (verb_counts a)
              = match occurrences_of v (verbs_of tagged) with
                | O => None
                | n => Some n
                end.
Proof.
  eexists. split; [vm_compute; reflexivity |].
  apply (verb_counts_count_tagged_verbs (H := lexicon_nltk) sample_text w0 w0).
  vm_compute. reflexivity.
Defined.

Lemma unique_verbs_are_distinct_lowercase_witness :
  exists a,
    extract_verbs (H := lexicon_nltk) sample_text w0 = (w0, Returned a)
    /\ NoDup (verbs a)
    /\ (total_unique_verbs a <= total_verb_instances a)%nat.
Proof.
  eexists. split; [vm_compute; reflexivity |].
  destruct (unique_verbs_are_distinct_lowercase (H := lexicon_nltk)
              sample_text w0 w0 _ eq_refl) as (Hnd & _ & _ & Hle & _).
  split; [exact Hnd | exact Hle].
Defined.

Lemma sentence_analysis_follows_sentences_witness :
  exists a,
    extract_verbs (H := lexicon_nltk) sample_text w0 = (w0, Returned a)
    /\ map Sentence.sentence (sentence_analysis a) = sentences a
    /\ map Sentence.sentence_number (sentence_analysis a)
       = seq 1 (total_sentences a).
Proof.
  eexists. split; [vm_compute; reflexivity |].
  destruct (sentence_analysis_follows_sentences (H := lexicon_nltk)
              sample_text w0 w0 _ eq_refl) as (Hs & Hn & _).
  split; [exact Hs | exact Hn].
Defined.

Lemma most_common_verbs_are_the_top_ten_witness :
  exists a,
    extract_verbs (H := lexicon_nltk) sample_text w0 = (w0, Returned a)
    /\ length (most_common_verbs a) = min 10 (total_unique_verbs a).
Proof.
  eexists. split; [vm_compute; reflexivity |].
  destruct (most_common_verbs_are_the_top_ten (H := lexicon_nltk)
              sample_text w0 w0 _ eq_refl) as (Hlen & _).
  exact Hlen.
Defined.

End AnalysisProps.

(* ===================================================================== *)
(** * More on [VerbAnalyzer.get_verb_categories]                          *)
(* ===================================================================== *)

Module CategoryOrder.
Import Py VerbAnalyzer MFacts VerbProps CounterProps CategoryProps
  AnalysisProps.

(** Whatever the result holds under a key is the list of one of the five
    categories. *)
Lemma lookup_is_category verbs key l :
  get_verb_categories verbs !! key = Some l ->
  exists c, key = key_of c /\ l = occurrences c verbs.
Proof.
  intros Hl.
  assert (Hcase : (exists c, key = key_of c) \/ (forall c, key_of c <> key)).
  { destruct (decide (key = key_of Action)); [left; eauto |].
    destruct (decide (key = key_of Linking)); [left; eauto |].
    destruct (decide (key = key_of Helping)); [left; eauto |].
    destruct (decide (key = key_of Irregular)); [left; eauto |].
    destruct (decide (key = key_of Regular)); [left; eauto |].
    right. intros []; congruence. }
  destruct Hcase as [(c & ->) | Hnone].
  - exists c. rewrite lookup_category in Hl. now injection Hl as <-.
  - rewrite lookup_other in Hl by assumption. discriminate.
Qed.

(** Each category list keeps the verbs in the order of the input, and has
    no repeated verb when the input has none. *)
Theorem categories_keep_order (verbs : list string) (key : string)
    (l : list string) :
  get_verb_categories verbs !! key = Some l ->
  l `sublist_of` verbs /\ (NoDup verbs -> NoDup l).
Proof.
  intros (c & -> & ->)%lookup_is_category. unfold occurrences. split.
  - apply sublist_filter.
  - apply NoDup_filter.
Qed.

Lemma categories_keep_order_witness :
  ["sleeping"; "chasing"] `sublist_of` ["is"; "sleeping"; "dreams"; "chasing"].
Proof.
  apply (categories_keep_order ["is"; "sleeping"; "dreams"; "chasing"]
           "action_verbs" ["sleeping"; "chasing"]).
  vm_compute. reflexivity.
Defined.

(** Categorizing a concatenation is categorizing the parts: under every
    key, the list for [l1 ++ l2] is the list for [l1] followed by the list
    for [l2]. *)
Theorem categories_of_app (l1 l2 : list string) (key : string)
    (a b : list string) :
  get_verb_categories l1 !! key = Some a ->
  get_verb_categories l2 !! key = Some b ->
  get_verb_categories (l1 ++ l2) !! key = Some (a ++ b).
Proof.
  intros (c & -> & ->)%lookup_is_category Hb.
  rewrite lookup_category in Hb. injection Hb as <-.
  rewrite lookup_category. unfold occurrences. now rewrite filter_app.
Qed.

Lemma categories_of_app_witness :
  get_verb_categories (["is"; "sleeping"] ++ ["dreams"; "chasing"])
    !! "action_verbs"
  = Some (["sleeping"] ++ ["chasing"]).
Proof.
  apply categories_of_app; vm_compute; reflexivity.
Defined.

(** ** Which verbs a category holds *)

Lemma classify_linking_iff v : classify v = Linking <-> lower v ∈ linking_verbs.
Proof.
  split; [| apply classify_linking].
  unfold classify. repeat case_decide; repeat case_match;
    try discriminate; intros; assumption.
Qed.

Lemma classify_helping_iff v : classify v = Helping <-> lower v ∈ helping_verbs.
Proof.
  split; [| apply classify_helping].
  unfold classify. repeat case_decide; repeat case_match;
    try discriminate; intros; assumption.
Qed.

Lemma classify_action_iff v :
  classify v = Action
  <-> (lower v ∉ linking_verbs) /\ (lower v ∉ helping_verbs)
      /\ endswith v "ing" = true.
Proof.
  split; [| intros (Hl & Hh & E); now apply classify_action].
  unfold classify. repeat case_decide; repeat case_match;
    try discriminate; intros; repeat split; assumption.
Qed.

Section WithNLTK.
Context `{NLTK}.

(** On the verbs that [extract_verbs] reports, which are in lowercase and
    distinct, the categories depend on the verb as reported: a verb is an
    action verb exactly when it is in neither word set and ends in "ing",
    a linking or helping verb exactly when it is in that word set; and no
    category list repeats a verb. *)
Theorem reported_verbs_categories (text : string) (w w' : world)
    (a : analysis) :
  extract_verbs text w = (w', Returned a) ->
  (forall v, In v (verbs a) ->
     (assigned_to "action_verbs" v (get_verb_categories (verbs a))
      <-> (v ∉ linking_verbs) /\ (v ∉ helping_verbs)
          /\ endswith v "ing" = true)
     /\ (assigned_to "linking_verbs" v (get_verb_categories (verbs a))
         <-> v ∈ linking_verbs)
     /\ (assigned_to "helping_verbs" v (get_verb_categories (verbs a))
         <-> v ∈ helping_verbs))
  /\ (forall key l, get_verb_categories (verbs a) !! key = Some l ->
        NoDup l).
Proof.
  intros (_ & sents & words & tagged & taggeds & _ & _ & _ & _ & ->)
    %extract_verbs_inv.
  simpl. destruct (counter_keys (verbs_of tagged)) as [Hnd Hin]. split.
  - intros v Hv. pose proof Hv as Hlow.
    apply Hin, verbs_of_lowercase in Hlow.
    apply list_elem_of_In in Hv. split; [split | split; split].
    + intros [Hc _]%(assigned_iff _ Action).
      apply classify_action_iff in Hc. now rewrite Hlow in Hc.
    + intros Hc. apply (assigned_iff _ Action). split; [| assumption].
      apply classify_action_iff. now rewrite Hlow.
    + intros [Hc _]%(assigned_iff _ Linking).
      apply classify_linking_iff in Hc. now rewrite Hlow in Hc.
    + intros Hc. apply (assigned_iff _ Linking). split; [| assumption].
      apply classify_linking_iff. now rewrite Hlow.
    + intros [Hc _]%(assigned_iff _ Helping).
      apply classify_helping_iff in Hc. now rewrite Hlow in Hc.
    + intros Hc. apply (assigned_iff _ Helping). split; [| assumption].
      apply classify_helping_iff. now rewrite Hlow.
  - intros key l (c & -> & ->)%lookup_is_category.
    unfold occurrences. now apply NoDup_filter.
Qed.

End WithNLTK.

Import Doubles.

Lemma reported_verbs_categories_witness :
  exists a,
    extract_verbs (H := lexicon_nltk) sample_text w0 = (w0, Returned a)
    /\ (assigned_to "linking_verbs" "is" (get_verb_categories (verbs a))
        <-> "is" ∈ linking_verbs).
Proof.
  eexists. split; [vm_compute; reflexivity |].
  destruct (reported_verbs_categories (H := lexicon_nltk)
              sample_text w0 w0 _ eq_refl) as [Hv _].
  apply (Hv "is"). simpl. tauto.
Defined.

End CategoryOrder.
